(** * nusaparagraph_emot: the SEACrowd dataset loader of NusaParagraph-Emot

    A shallow embedding of
    [seacrowd/sea_datasets/nusaparagraph_emot/nusaparagraph_emot.py]:
    the configuration constructor and registry, the schema declaration,
    split resolution against the download manager, and example emission
    over the pandas operations the loader calls. *)

From Stdlib Require Import List String Ascii ZArith Lia Bool DecimalString.
From Stdlib Require Import DecimalPos DecimalZ.
Import ListNotations.
Local Open Scope string_scope.
Local Open Scope list_scope.

(** ** Exceptions and the error monad *)

(** What [pd.read_csv] can fail with on a path. *)
Inductive read_error : Type :=
| FileNotFoundError
| EmptyDataError
| ParserError.

(** The Python exceptions the loader and its collaborators raise, with the
    text that tells two [ValueError]s apart. *)
Inductive exn : Type :=
| ValueError (msg : string)
| KeyError (msg : string)
| AttributeError (attr : string)
| TypeError (msg : string)
| IndexError (msg : string)
| UnboundLocalError (var : string)
| ReadError (e : read_error)
| DownloadError (url : string)
| InvalidConfigName (msg : string).

Definition result (A : Type) : Type := (exn + A)%type.
Definition Ok {A : Type} (a : A) : result A := inr a.
Definition Raise {A : Type} (e : exn) : result A := inl e.

Definition bind {A B : Type} (m : result A) (k : A -> result B) : result B :=
  match m with
  | inl e => inl e
  | inr a => k a
  end.

Notation "x <- m ;; k" := (bind m (fun x => k))
  (at level 61, m at next level, right associativity).

(** A comprehension or [for] loop whose body may raise: the first exception
    ends it. *)
Fixpoint mapM {A B : Type} (f : A -> result B) (l : list A) : result (list B) :=
  match l with
  | [] => Ok []
  | a :: l' => b <- f a ;; bs <- mapM f l' ;; Ok (b :: bs)
  end.

(** ** Python strings *)

(** [s.split(sep)] for a one-character separator. *)
Fixpoint split (sep : ascii) (s : string) : list string :=
  match s with
  | EmptyString => [EmptyString]
  | String c rest =>
      if Ascii.eqb c sep then EmptyString :: split sep rest
      else match split sep rest with
           | [] => [String c EmptyString]
           | h :: t => String c h :: t
           end
  end.

(** [l[i]] on a list. *)
Definition getitem {A : Type} (l : list A) (i : nat) : result A :=
  match nth_error l i with
  | Some a => Ok a
  | None => Raise (IndexError "list index out of range")
  end.

Definition mem (s : string) (l : list string) : bool :=
  existsb (String.eqb s) l.

(** ** The pandas operations the loader calls *)

Module Pandas.

(** A table cell: an integer, a string, or the missing value. Floating-point
    cells are left out, and with them what pandas does to a column in which
    integers meet missing values: it reads, or stacks, the whole column as
    floats. The properties below that say which cells are emitted are stated
    for columns where this cannot arise, [plain_column]: all integers, or no
    integer at all. *)
Inductive cell : Type :=
| VInt (z : Z)
| VStr (s : string)
| VNaN.

(** Python's [str] on a cell. *)
Definition str (c : cell) : string :=
  match c with
  | VInt z => NilZero.string_of_int (Z.to_int z)
  | VStr s => s
  | VNaN => "nan"
  end.

(** A data frame, column by column: the row labels and, per column label,
    the cells from the first row to the last. *)
Record DataFrame : Type := {
  index : list Z;
  columns : list (string * list cell)
}.

Definition nrows (df : DataFrame) : nat := List.length (index df).
Definition labels (df : DataFrame) : list string := map fst (columns df).

(** [RangeIndex(n)]: the labels 0, 1, ..., n-1. *)
Definition RangeIndex (n : nat) : list Z := map Z.of_nat (seq 0 n).

(** The first column carrying a label. *)
Fixpoint lookup (name : string) (cols : list (string * list cell))
  : option (list cell) :=
  match cols with
  | [] => None
  | (n, col) :: cols' => if String.eqb name n then Some col else lookup name cols'
  end.

(** The table a CSV file parses to: the header's labels and the rows below
    it. A row shorter than the header reads as missing values there. *)
Record Csv : Type := {
  header : list string;
  body : list (list cell)
}.

(** The columns of a parsed file, the header's [j]-th label over the
    [j]-th cell of every row. *)
Fixpoint columns_from (names : list string) (j : nat) (rows : list (list cell))
  : list (string * list cell) :=
  match names with
  | [] => []
  | n :: names' =>
      (n, map (fun r => nth j r VNaN) rows) :: columns_from names' (S j) rows
  end.

Section ReadCsv.

(** The files behind the paths, as the CSV parser reads them. *)
Variable files : string -> read_error + Csv.

(** [pd.read_csv(path)]: the parsed table under a fresh [RangeIndex]. *)
Definition read_csv (path : string) : result DataFrame :=
  match files path with
  | inl e => Raise (ReadError e)
  | inr c =>
      Ok {| index := RangeIndex (List.length (body c));
            columns := columns_from (header c) 0 (body c) |}
  end.

End ReadCsv.

(** [df.reset_index()]: the old row labels become a new first column,
    named [index], or [level_0] when a column [index] exists already; the
    rows are relabelled 0..n-1. *)
Definition reset_index (df : DataFrame) : result DataFrame :=
  let name := if mem "index" (labels df) then "level_0" else "index" in
  if mem name (labels df)
  then Raise (ValueError ("cannot insert " ++ name ++ ", already exists")%string)
  else Ok {| index := RangeIndex (nrows df);
             columns := (name, map VInt (index df)) :: columns df |}.

(** The column labels of several frames, each once, in order of first
    appearance. *)
Fixpoint unique (seen : list string) (l : list string) : list string :=
  match l with
  | [] => []
  | n :: l' => if mem n seen then unique seen l' else n :: unique (n :: seen) l'
  end.

Definition union_labels (dfs : list DataFrame) : list string :=
  unique [] (flat_map labels dfs).

(** A frame's cells under a label, missing values where it has no such
    column. *)
Definition column_or_nan (name : string) (df : DataFrame) : list cell :=
  match lookup name (columns df) with
  | Some col => col
  | None => repeat VNaN (nrows df)
  end.

(** [pd.concat(dfs, axis=0, ignore_index=True)]: the frames stacked in list
    order over the union of their columns, relabelled 0..n-1. *)
Definition concat (dfs : list DataFrame) : result DataFrame :=
  match dfs with
  | [] => Raise (ValueError "No objects to concatenate")
  | _ :: _ =>
      Ok {| index := RangeIndex (list_sum (map nrows dfs));
            columns :=
              map (fun name => (name, flat_map (column_or_nan name) dfs))
                  (union_labels dfs) |}
  end.

(** Python's [repr] of a list of strings without quotes of their own. *)
Definition repr_list (l : list string) : string :=
  ("[" ++ String.concat ", " (map (fun s => "'" ++ s ++ "'") l) ++ "]")%string.

(** [df.drop(columns=names)]: every named label must exist. *)
Definition drop (names : list string) (df : DataFrame) : result DataFrame :=
  if forallb (fun n => mem n (labels df)) names
  then Ok {| index := index df;
             columns := filter (fun c => negb (mem (fst c) names)) (columns df) |}
  else Raise (KeyError
                (repr_list (filter (fun n => negb (mem n (labels df))) names)
                 ++ " not found in axis")%string).

(** [df.rename(columns=mapping)]. *)
Fixpoint renamed (mapping : list (string * string)) (name : string) : string :=
  match mapping with
  | [] => name
  | (old, new) :: mapping' =>
      if String.eqb name old then new else renamed mapping' name
  end.

Definition rename (mapping : list (string * string)) (df : DataFrame)
  : DataFrame :=
  {| index := index df;
     columns := map (fun c => (renamed mapping (fst c), snd c)) (columns df) |}.

(** [row.name] on the [k]-th tuple of [df.itertuples()]. *)
Definition getattr (df : DataFrame) (k : nat) (name : string) : result cell :=
  match lookup name (columns df) with
  | Some col => Ok (nth k col VNaN)
  | None => Raise (AttributeError name)
  end.

End Pandas.
Import Pandas.

(** ** Constants of the loader *)

Definition _DATASETNAME : string := "nusaparagraph_emot".
Definition _SOURCE_VERSION : string := "1.0.0".
Definition _SEACROWD_VERSION : string := "1.0.0".

(** A URL with one [{lang}] field: the text before and after it. *)
Record template : Type := {
  before : string;
  after : string
}.

(** [t.format(lang=lang)]. *)
Definition format (t : template) (lang : string) : string :=
  (before t ++ lang ++ after t)%string.

Definition _URLS : list (string * template) :=
  [ ("train",
     {| before := "https://raw.githubusercontent.com/IndoNLP/nusa-writes/main/data/nusa_alinea-emot-";
        after := "-train.csv" |});
    ("validation",
     {| before := "https://raw.githubusercontent.com/IndoNLP/nusa-writes/main/data/nusa_alinea-emot-";
        after := "-valid.csv" |});
    ("test",
     {| before := "https://raw.githubusercontent.com/IndoNLP/nusa-writes/main/data/nusa_alinea-emot-";
        after := "-test.csv" |}) ].

(** [d[key]] on a dict kept in insertion order. *)
Fixpoint dict_get {V : Type} (d : list (string * V)) (key : string) : result V :=
  match d with
  | [] => Raise (KeyError key)
  | (k, v) :: d' => if String.eqb key k then Ok v else dict_get d' key
  end.

(** The language table; iterating a dict walks its keys in insertion order. *)
Definition LANGUAGES_MAP : list (string * string) :=
  [ ("btk", "batak"); ("bew", "betawi"); ("bug", "buginese");
    ("jav", "javanese"); ("mad", "madurese"); ("mak", "makassarese");
    ("min", "minangkabau"); ("mui", "musi"); ("rej", "rejang");
    ("sun", "sundanese") ].

Definition keys {V : Type} (d : list (string * V)) : list string := map fst d.

(** ** Configurations *)

(** Strings stand for Python strings over the code points below 256; among
    those the decimal digits are the ASCII ones. *)
Definition is_digit (c : ascii) : bool :=
  (48 <=? nat_of_ascii c)%nat && (nat_of_ascii c <=? 57)%nat.

Fixpoint all_digits (s : string) : bool :=
  match s with
  | EmptyString => true
  | String c s' => is_digit c && all_digits s'
  end.

(** What [\d+] matches in full. *)
Definition digits (s : string) : bool :=
  negb (String.eqb s "") && all_digits s.

(** A string without the one newline a final [$] lets pass. *)
Fixpoint chomp (s : string) : string :=
  match s with
  | EmptyString => EmptyString
  | String c s' =>
      match s' with
      | EmptyString => if Ascii.eqb c "010"%char then EmptyString else s
      | String _ _ => String c (chomp s')
      end
  end.

(** The test of [datasets.Version] on its string: major, minor and patch,
    each of digits, between two dots. *)
Definition valid_version (version_str : string) : bool :=
  match split "."%char (chomp version_str) with
  | [major; minor; patch] => digits major && digits minor && digits patch
  | _ => false
  end.

Record Version : Type := { version_str : string }.

(** [datasets.Version(version_str)]. *)
Definition datasets_Version (version_str : string) : result Version :=
  if valid_version version_str
  then Ok {| version_str := version_str |}
  else Raise (ValueError
                ("Invalid version '" ++ version_str
                 ++ "'. Format should be x.y.z with {x,y,z} being digits.")%string).

Record SEACrowdConfig : Type := {
  name : string;
  version : Version;
  description : string;
  schema : string;
  subset_id : string
}.

(** The characters [datasets.BuilderConfig] refuses in a configuration name,
    in the order it tries them. *)
Definition INVALID_WINDOWS_CHARACTERS_IN_PATH : string := "<>:/\|?*".

Fixpoint any_char (f : ascii -> bool) (s : string) : bool :=
  match s with
  | EmptyString => false
  | String c s' => f c || any_char f s'
  end.

Definition bad_name (config_name : string) : bool :=
  any_char (fun bad => any_char (Ascii.eqb bad) config_name)
           INVALID_WINDOWS_CHARACTERS_IN_PATH.

(** Building the [SEACrowdConfig] dataclass: the fields are kept, after the
    test its base class makes on the name. *)
Definition new_SEACrowdConfig (config : SEACrowdConfig) : result SEACrowdConfig :=
  if bad_name (name config)
  then Raise (InvalidConfigName
                ("Bad characters from black list '"
                 ++ INVALID_WINDOWS_CHARACTERS_IN_PATH ++ "' found in '"
                 ++ name config
                 ++ "'. They could create issues when creating a directory for this config on Windows filesystem.")%string)
  else Ok config.

Definition seacrowd_config_constructor (lang schema version : string)
  : result SEACrowdConfig :=
  if negb (String.eqb schema "source") && negb (String.eqb schema "seacrowd_text")
  then Raise (ValueError ("Invalid schema: " ++ schema)%string)
  else if String.eqb lang ""
  then v <- datasets_Version version ;;
       new_SEACrowdConfig
         {| name := ("nusaparagraph_emot_" ++ schema)%string;
            version := v;
            description :=
              ("nusaparagraph_emot with " ++ schema
               ++ " schema for all 10 languages")%string;
            schema := schema;
            subset_id := "nusaparagraph_emot" |}
  else v <- datasets_Version version ;;
       new_SEACrowdConfig
         {| name := ("nusaparagraph_emot_" ++ lang ++ "_" ++ schema)%string;
            version := v;
            description :=
              ("nusaparagraph_emot with " ++ schema ++ " schema for "
               ++ lang ++ " language")%string;
            schema := schema;
            subset_id := "nusaparagraph_emot" |}.

Definition BUILDER_CONFIGS : result (list SEACrowdConfig) :=
  source_configs <-
    mapM (fun lang => seacrowd_config_constructor lang "source" _SOURCE_VERSION)
         (keys LANGUAGES_MAP) ;;
  seacrowd_configs <-
    mapM (fun lang =>
            seacrowd_config_constructor lang "seacrowd_text" _SEACROWD_VERSION)
         (keys LANGUAGES_MAP) ;;
  all_source <- seacrowd_config_constructor "" "source" _SOURCE_VERSION ;;
  all_seacrowd <-
    seacrowd_config_constructor "" "seacrowd_text" _SEACROWD_VERSION ;;
  Ok (source_configs ++ seacrowd_configs ++ [all_source; all_seacrowd]).

Definition DEFAULT_CONFIG_NAME : string := "nusaparagraph_emot_ind_source".

(** Selecting a registered configuration by its name. *)
Definition builder_config (config_name : string) (registry : list SEACrowdConfig)
  : option SEACrowdConfig :=
  find (fun c => String.eqb (name c) config_name) registry.

(** The test both [_split_generators] and [_generate_examples] make on the
    configuration name. *)
Definition all_languages (config_name : string) : bool :=
  String.eqb config_name "nusaparagraph_emot_source"
  || String.eqb config_name "nusaparagraph_emot_seacrowd_text".

(** ** Schema declaration *)

Inductive feature : Type :=
| Value (dtype : string)
| ClassLabel (names : list string).

Definition Features : Type := list (string * feature).

(** Modelled from the spec: [schemas.text_features] of [seacrowd.utils] is not
    part of the sources at hand; the normalized record is [id] and [text] as
    strings and [label] over the fixed label set it is given. *)
Definition text_features (label_names : list string) : Features :=
  [ ("id", Value "string"); ("text", Value "string");
    ("label", ClassLabel label_names) ].

Definition _info (config : SEACrowdConfig) : result Features :=
  if String.eqb (schema config) "source"
  then Ok [ ("id", Value "string"); ("text", Value "string");
            ("label", Value "string") ]
  else if String.eqb (schema config) "seacrowd_text"
  then Ok (text_features
             ["fear"; "disgusted"; "sad"; "happy"; "angry"; "surprise"; "shame"])
  else Raise (UnboundLocalError "features").

(** The label set a configuration declares, when it declares one. *)
Definition declared_labels (config : SEACrowdConfig) : option (list string) :=
  match _info config with
  | inr fs =>
      match dict_get fs "label" with
      | inr (ClassLabel names) => Some names
      | _ => None
      end
  | inl _ => None
  end.

(** ** Split resolution *)

(** What a split generator hands to example emission: one [Path], kept as the
    string it is built from, or a list of paths. *)
Inductive filepath : Type :=
| OnePath (p : string)
| PathList (ps : list string).

Inductive Split : Type := TRAIN | VALIDATION | TEST.

Record SplitGenerator : Type := {
  split_name : Split;
  gen_kwargs : filepath
}.

(** A call of [dl_manager.download_and_extract], on one URL or on a list. *)
Inductive request : Type :=
| FetchOne (url : string)
| FetchMany (urls : list string).

(** Code that talks to the download manager: it may raise, and the calls it
    made so far are on record either way. *)
Definition DL (A : Type) : Type := list request -> result A * list request.

Definition dl_ret {A : Type} (m : result A) : DL A := fun log => (m, log).

Definition dl_bind {A B : Type} (m : DL A) (k : A -> DL B) : DL B :=
  fun log =>
    match m log with
    | (inl e, log') => (inl e, log')
    | (inr a, log') => k a log'
    end.

Notation "x <~ m ;; k" := (dl_bind m (fun x => k))
  (at level 61, m at next level, right associativity).

Section Builder.

(** The download manager: the local path a URL resolves to. *)
Variable fetch : string -> result string.

(** The files behind the local paths. *)
Variable files : string -> read_error + Csv.

Definition download_and_extract (url : string) : DL string :=
  fun log => (fetch url, log ++ [FetchOne url]).

Definition download_and_extract_list (urls : list string) : DL (list string) :=
  fun log => (mapM fetch urls, log ++ [FetchMany urls]).

(** The URL of a split's file for a language. *)
Definition split_url (key lang : string) : result string :=
  t <- dict_get _URLS key ;; Ok (format t lang).

Definition _split_generators (config : SEACrowdConfig)
  : DL (list SplitGenerator) :=
  paths <~
    (if all_languages (name config)
     then
       train_urls <~ dl_ret (mapM (split_url "train") (keys LANGUAGES_MAP)) ;;
       train_csv_path <~ download_and_extract_list train_urls ;;
       validation_urls <~
         dl_ret (mapM (split_url "validation") (keys LANGUAGES_MAP)) ;;
       validation_csv_path <~ download_and_extract_list validation_urls ;;
       test_urls <~ dl_ret (mapM (split_url "test") (keys LANGUAGES_MAP)) ;;
       test_csv_path <~ download_and_extract_list test_urls ;;
       dl_ret (Ok (PathList train_csv_path, PathList validation_csv_path,
                   PathList test_csv_path))
     else
       lang <~ dl_ret (getitem (split "_"%char (name config)) 2) ;;
       train_url <~ dl_ret (split_url "train" lang) ;;
       train_csv_path <~ download_and_extract train_url ;;
       validation_url <~ dl_ret (split_url "validation" lang) ;;
       validation_csv_path <~ download_and_extract validation_url ;;
       test_url <~ dl_ret (split_url "test" lang) ;;
       test_csv_path <~ download_and_extract test_url ;;
       dl_ret (Ok (OnePath train_csv_path, OnePath validation_csv_path,
                   OnePath test_csv_path))) ;;
  let '(train_csv_path, validation_csv_path, test_csv_path) := paths in
  dl_ret (Ok [ {| split_name := TRAIN; gen_kwargs := train_csv_path |};
               {| split_name := VALIDATION; gen_kwargs := validation_csv_path |};
               {| split_name := TEST; gen_kwargs := test_csv_path |} ]).

(** ** Example emission *)

Record example : Type := {
  ex_id : string;
  ex_text : cell;
  ex_label : cell
}.

(** What a run of the generator leaves: the pairs it yielded, in order, and
    the exception that ended it, if one did. *)
Record emission : Type := {
  yielded : list (cell * example);
  raised : option exn
}.

(** The loop body on the [k]-th row: the pair it yields. *)
Definition row_example (df : DataFrame) (k : nat) : result (cell * example) :=
  id <- getattr df k "id" ;;
  text <- getattr df k "text" ;;
  label <- getattr df k "label" ;;
  Ok (id, {| ex_id := str id; ex_text := text; ex_label := label |}).

(** [for row in df.itertuples(): ... yield row.id, ex] over the rows [ks]. *)
Fixpoint emit_rows (df : DataFrame) (ks : list nat) : emission :=
  match ks with
  | [] => {| yielded := []; raised := None |}
  | k :: ks' =>
      match row_example df k with
      | inl e => {| yielded := []; raised := Some e |}
      | inr y =>
          let rest := emit_rows df ks' in
          {| yielded := y :: yielded rest; raised := raised rest |}
      end
  end.

(** The frame [_generate_examples] builds before it iterates. *)
Definition load_frame (config : SEACrowdConfig) (fp : filepath)
  : result DataFrame :=
  if all_languages (name config)
  then
    ldf <- match fp with
           | PathList ps => mapM (read_csv files) ps
           | OnePath _ => Raise (TypeError "'PosixPath' object is not iterable")
           end ;;
    df <- concat ldf ;;
    df <- reset_index df ;;
    df <- drop ["id"] df ;;
    Ok (rename [("index", "id")] df)
  else
    df <- match fp with
          | OnePath p => read_csv files p
          | PathList _ =>
              Raise (ValueError "Invalid file path or buffer object type: <class 'list'>")
          end ;;
    reset_index df.

Definition _generate_examples (config : SEACrowdConfig) (fp : filepath)
  : emission :=
  if negb (String.eqb (schema config) "source")
     && negb (String.eqb (schema config) "seacrowd_text")
  then {| yielded := [];
          raised := Some (ValueError ("Invalid config: " ++ name config)%string) |}
  else
    match load_frame config fp with
    | inl e => {| yielded := []; raised := Some e |}
    | inr df => emit_rows df (seq 0 (nrows df))
    end.

End Builder.

(** ** What a well-formed file of the corpus looks like *)

(** Where a label first stands in a header. *)
Fixpoint position (name : string) (names : list string) : nat :=
  match names with
  | [] => 0
  | n :: names' => if String.eqb name n then 0 else S (position name names')
  end.

(** The cell a row of a file holds under a label. *)
Definition csv_cell (c : Csv) (name : string) (row : list cell) : cell :=
  nth (position name (header c)) row VNaN.

Definition csv_column (c : Csv) (name : string) : list cell :=
  map (csv_cell c name) (body c).

(** The header the loader relies on: the three columns it reads, and no
    column that already bears the name [reset_index] gives the row labels. *)
Definition emot_header (c : Csv) : bool :=
  mem "id" (header c) && mem "text" (header c) && mem "label" (header c)
  && negb (mem "index" (header c)).

(** A column pandas reads and stacks cell by cell as it stands: all
    integers, or no integer at all. *)
Definition int_cell (c : cell) : bool :=
  match c with
  | VInt _ => true
  | _ => false
  end.

Definition plain_column (col : list cell) : bool :=
  forallb int_cell col || forallb (fun c => negb (int_cell c)) col.

(** The pair the loop yields for a key, a text and a label. *)
Definition record_of (id text label : cell) : cell * example :=
  (id, {| ex_id := str id; ex_text := text; ex_label := label |}).

(** The text and label of every row of the files, file after file. *)
Definition stacked_rows (cs : list Csv) : list (cell * cell) :=
  flat_map (fun c => map (fun r => (csv_cell c "text" r, csv_cell c "label" r))
                         (body c)) cs.

(** The paths a [filepath] argument names. *)
Definition paths_of (fp : filepath) : list string :=
  match fp with
  | OnePath p => [p]
  | PathList ps => ps
  end.

(** A label cell that is one of the given names. *)
Definition label_in (names : list string) (c : cell) : bool :=
  match c with
  | VStr s => mem s names
  | _ => false
  end.

(** The frame [read_csv] builds from a parsed file. *)
Definition frame_of (c : Csv) : DataFrame :=
  {| index := RangeIndex (List.length (body c));
     columns := columns_from (header c) 0 (body c) |}.

(** The URLs of a language's three files. *)
Definition train_url (lang : string) : string :=
  ("https://raw.githubusercontent.com/IndoNLP/nusa-writes/main/data/nusa_alinea-emot-"
   ++ lang ++ "-train.csv")%string.

Definition validation_url (lang : string) : string :=
  ("https://raw.githubusercontent.com/IndoNLP/nusa-writes/main/data/nusa_alinea-emot-"
   ++ lang ++ "-valid.csv")%string.

Definition test_url (lang : string) : string :=
  ("https://raw.githubusercontent.com/IndoNLP/nusa-writes/main/data/nusa_alinea-emot-"
   ++ lang ++ "-test.csv")%string.

(** The URL of a language's file for a split. *)
Definition split_file_url (s : Split) (lang : string) : string :=
  match s with
  | TRAIN => train_url lang
  | VALIDATION => validation_url lang
  | TEST => test_url lang
  end.

(** Whether a character occurs in a string. *)
Fixpoint contains (c : ascii) (s : string) : bool :=
  match s with
  | EmptyString => false
  | String c' s' => Ascii.eqb c' c || contains c s'
  end.

(** The two errors by the names the design gives them. *)
Definition InvalidSchemaError (sch : string) : exn :=
  ValueError ("Invalid schema: " ++ sch)%string.

Definition InvalidConfigError (config_name : string) : exn :=
  ValueError ("Invalid config: " ++ config_name)%string.

Definition emotions : list string :=
  ["fear"; "disgusted"; "sad"; "happy"; "angry"; "surprise"; "shame"].

(** A list of strings without repeats, as a test. *)
Fixpoint distinct (l : list string) : bool :=
  match l with
  | [] => true
  | s :: l' => negb (mem s l') && distinct l'
  end.

(** The part of a string before its first [_]. *)
Definition first_field (s : string) : string :=
  hd EmptyString (split "_"%char s).

(** Whether a [filepath] argument is of the kind the branch taken for a
    configuration name iterates or reads. *)
Definition fits_branch (config_name : string) (fp : filepath) : bool :=
  match fp with
  | OnePath _ => negb (all_languages config_name)
  | PathList _ => all_languages config_name
  end.

(** The text and label of every pair a run yielded. *)
Definition emitted_rows (out : emission) : list (cell * cell) :=
  map (fun y => (ex_text (snd y), ex_label (snd y))) (yielded out).

(** ** Sample inputs *)

Module Sample.

Definition emot_columns : list string := ["id"; "text"; "label"].

(** A Javanese train file whose own ids are 5 and 9. *)
Definition jav_train : Csv :=
  {| header := emot_columns;
     body := [ [VInt 5; VStr "a"; VStr "happy"];
               [VInt 9; VStr "b"; VStr "sad"] ] |}.

(** Two files of two and three rows, each numbered from 0. *)
Definition btk_train : Csv :=
  {| header := emot_columns;
     body := [ [VInt 0; VStr "p"; VStr "fear"];
               [VInt 1; VStr "q"; VStr "angry"] ] |}.

Definition bew_train : Csv :=
  {| header := emot_columns;
     body := [ [VInt 0; VStr "r"; VStr "shame"];
               [VInt 1; VStr "s"; VStr "sad"];
               [VInt 2; VStr "t"; VStr "happy"] ] |}.

(** A file with a label outside the seven. *)
Definition mad_train : Csv :=
  {| header := emot_columns;
     body := [ [VInt 0; VStr "u"; VStr "joy"] ] |}.

(** A file with a column of its own named [index]. *)
Definition indexed_train : Csv :=
  {| header := ["index"; "id"; "text"; "label"];
     body := [ [VInt 7; VInt 0; VStr "a"; VStr "happy"];
               [VInt 7; VInt 1; VStr "b"; VStr "sad"] ] |}.

(** A file of one row. *)
Definition one_row (text : string) : Csv :=
  {| header := emot_columns;
     body := [ [VInt 0; VStr text; VStr "surprise"] ] |}.

(** The train file of every language of the table, in table order. *)
Definition train_files : list (string * Csv) :=
  [ ("btk", btk_train); ("bew", bew_train); ("bug", one_row "v");
    ("jav", jav_train); ("mad", mad_train); ("mak", one_row "w");
    ("min", one_row "x"); ("mui", one_row "y"); ("rej", one_row "z");
    ("sun", one_row "k") ].

(** A download manager that keeps every URL under [/cache/]. *)
Definition cached (url : string) : string := ("/cache/" ++ url)%string.
Definition fetch (url : string) : result string := Ok (cached url).

(** The disk after the train files were fetched. *)
Definition disk (path : string) : read_error + Csv :=
  match find (fun f => String.eqb path (cached (train_url (fst f)))) train_files with
  | Some f => inr (snd f)
  | None => inl FileNotFoundError
  end.

Definition train_path (lang : string) : string := cached (train_url lang).

Definition config_of (lang sch : string) : SEACrowdConfig :=
  {| name := if String.eqb lang ""
             then ("nusaparagraph_emot_" ++ sch)%string
             else ("nusaparagraph_emot_" ++ lang ++ "_" ++ sch)%string;
     version := {| version_str := "1.0.0" |};
     description :=
       if String.eqb lang ""
       then ("nusaparagraph_emot with " ++ sch
             ++ " schema for all 10 languages")%string
       else ("nusaparagraph_emot with " ++ sch ++ " schema for "
             ++ lang ++ " language")%string;
     schema := sch;
     subset_id := "nusaparagraph_emot" |}.

Definition jav_source : SEACrowdConfig := config_of "jav" "source".
Definition jav_seacrowd_text : SEACrowdConfig := config_of "jav" "seacrowd_text".
Definition mad_seacrowd_text : SEACrowdConfig := config_of "mad" "seacrowd_text".
Definition all_source : SEACrowdConfig := config_of "" "source".

(** What split resolution hands the train split of the all-languages
    configuration. *)
Definition all_train : SplitGenerator :=
  {| split_name := TRAIN;
     gen_kwargs := PathList (map train_path (keys LANGUAGES_MAP)) |}.

End Sample.

(** * Lemmas *)

Section ListFacts.

Context {A B : Type}.

Lemma map_nth_seq (f : A -> B) (d : A) (l : list A) :
  map (fun k => f (nth k l d)) (seq 0 (List.length l)) = map f l.
Proof.
  induction l as [|a l IH]; simpl; [reflexivity|].
  f_equal. rewrite <- seq_shift, map_map. exact IH.
Qed.

Lemma map_seq_combine (g : nat -> A -> B) (d : A) (l : list A) (a : nat) :
  map (fun k => g (a + k) (nth k l d)) (seq 0 (List.length l))
  = map (fun p => g (fst p) (snd p)) (combine (seq a (List.length l)) l).
Proof.
  revert a. induction l as [|x l IH]; intros a; simpl; [reflexivity|].
  rewrite Nat.add_0_r. f_equal.
  rewrite <- seq_shift, map_map, <- (IH (S a)).
  apply map_ext. intros k. now rewrite Nat.add_succ_r.
Qed.

Lemma length_flat_map_sum (f : A -> list B) (l : list A) :
  List.length (flat_map f l) = list_sum (map (fun a => List.length (f a)) l).
Proof.
  induction l as [|a l IH]; simpl; [reflexivity|].
  now rewrite length_app, IH.
Qed.

End ListFacts.

Lemma mem_In (s : string) (l : list string) : mem s l = true <-> In s l.
Proof.
  unfold mem. rewrite existsb_exists. split.
  - intros [x [Hin Heq]]. apply String.eqb_eq in Heq. now subst.
  - intros Hin. exists s. split; [assumption | apply String.eqb_refl].
Qed.

Lemma mem_not_In (s : string) (l : list string) : mem s l = false <-> ~ In s l.
Proof.
  rewrite <- mem_In. destruct (mem s l); split; congruence.
Qed.

Lemma bind_Ok {A B : Type} (m : result A) (k : A -> result B) (b : B) :
  bind m k = inr b -> exists a, m = inr a /\ k a = inr b.
Proof.
  destruct m as [e|a]; simpl; [discriminate|]. intros H. now exists a.
Qed.

Lemma mapM_Forall2 {A B : Type} (f : A -> result B) (l : list A) (bs : list B) :
  Forall2 (fun a b => f a = inr b) l bs -> mapM f l = inr bs.
Proof.
  induction 1 as [|a b l bs Hab _ IH]; simpl; [reflexivity|].
  now rewrite Hab; simpl; rewrite IH.
Qed.

Lemma mapM_Ok_Forall2 {A B : Type} (f : A -> result B) (l : list A) (bs : list B) :
  mapM f l = inr bs -> Forall2 (fun a b => f a = inr b) l bs.
Proof.
  revert bs. induction l as [|a l IH]; simpl; intros bs H.
  - injection H as <-. constructor.
  - apply bind_Ok in H as [b [Hb H]]. apply bind_Ok in H as [bs' [Hbs H]].
    injection H as <-. constructor; auto.
Qed.

Lemma mapM_total {A B : Type} (f : A -> result B) (g : A -> B) (l : list A) :
  (forall a, f a = inr (g a)) -> mapM f l = inr (map g l).
Proof.
  intros H. induction l as [|a l IH]; simpl; [reflexivity|].
  now rewrite H; simpl; rewrite IH.
Qed.

(** ** Frames read from files *)

Lemma lookup_columns_from (name : string) (names : list string) (j : nat)
      (rows : list (list cell)) :
  lookup name (columns_from names j rows)
  = if mem name names
    then Some (map (fun r => nth (j + position name names) r VNaN) rows)
    else None.
Proof.
  revert j. induction names as [|n names IH]; intros j; simpl; [reflexivity|].
  destruct (String.eqb name n); simpl.
  - now rewrite Nat.add_0_r.
  - rewrite IH. now rewrite Nat.add_succ_r.
Qed.

Lemma labels_columns_from (names : list string) (j : nat) (rows : list (list cell)) :
  map fst (columns_from names j rows) = names.
Proof.
  revert j. induction names as [|n names IH]; intros j; simpl; [reflexivity|].
  now rewrite IH.
Qed.

Lemma read_csv_frame (files : string -> read_error + Csv) (p : string) (c : Csv) :
  files p = inr c -> read_csv files p = inr (frame_of c).
Proof. unfold read_csv. now intros ->. Qed.

Lemma read_csv_inv (files : string -> read_error + Csv) (p : string) (df : DataFrame) :
  read_csv files p = inr df -> exists c, files p = inr c /\ df = frame_of c.
Proof.
  unfold read_csv. destruct (files p) as [e|c]; [discriminate|].
  intros H. injection H as <-. now exists c.
Qed.

Lemma nrows_frame_of (c : Csv) : nrows (frame_of c) = List.length (body c).
Proof. unfold nrows, frame_of, RangeIndex; simpl. now rewrite length_map, length_seq. Qed.

Lemma labels_frame_of (c : Csv) : labels (frame_of c) = header c.
Proof. unfold labels, frame_of; simpl. apply labels_columns_from. Qed.

Lemma lookup_frame_of (c : Csv) (name : string) :
  lookup name (columns (frame_of c))
  = if mem name (header c) then Some (csv_column c name) else None.
Proof. unfold frame_of; simpl. now rewrite lookup_columns_from. Qed.

Lemma column_or_nan_frame_of (c : Csv) (name : string) :
  mem name (header c) = true -> column_or_nan name (frame_of c) = csv_column c name.
Proof. intros H. unfold column_or_nan. now rewrite lookup_frame_of, H. Qed.

Lemma length_column_or_nan_frame_of (c : Csv) (name : string) :
  List.length (column_or_nan name (frame_of c)) = List.length (body c).
Proof.
  unfold column_or_nan. rewrite lookup_frame_of.
  destruct (mem name (header c)).
  - unfold csv_column. apply length_map.
  - now rewrite repeat_length, nrows_frame_of.
Qed.

(** ** The emission loop *)

Lemma emit_rows_columns (df : DataFrame) (ci ct cl : list cell) (ks : list nat) :
  lookup "id" (columns df) = Some ci ->
  lookup "text" (columns df) = Some ct ->
  lookup "label" (columns df) = Some cl ->
  emit_rows df ks
  = {| yielded :=
         map (fun k => record_of (nth k ci VNaN) (nth k ct VNaN) (nth k cl VNaN)) ks;
       raised := None |}.
Proof.
  intros Hi Ht Hl. induction ks as [|k ks IH]; simpl; [reflexivity|].
  unfold row_example, getattr. rewrite Hi, Ht, Hl. simpl. now rewrite IH.
Qed.

(** Every pair the loop yields comes from a row where the three attributes
    were found. *)
Lemma emit_rows_yielded (df : DataFrame) (ks : list nat) (y : cell * example) :
  In y (yielded (emit_rows df ks)) ->
  exists k ci ct cl,
    In k ks /\ lookup "id" (columns df) = Some ci
    /\ lookup "text" (columns df) = Some ct
    /\ lookup "label" (columns df) = Some cl
    /\ y = record_of (nth k ci VNaN) (nth k ct VNaN) (nth k cl VNaN).
Proof.
  induction ks as [|k ks IH]; simpl; [contradiction|].
  unfold row_example, getattr.
  destruct (lookup "id" (columns df)) as [ci|]; simpl; [|contradiction].
  destruct (lookup "text" (columns df)) as [ct|]; simpl; [|contradiction].
  destruct (lookup "label" (columns df)) as [cl|]; simpl; [|contradiction].
  intros [<- | Hin].
  - exists k, ci, ct, cl. now repeat split; auto.
  - unfold row_example, getattr in IH.
    destruct (IH Hin) as (k' & ci' & ct' & cl' & Hk & Hi & Ht & Hl & Hy).
    exists k', ci', ct', cl'. now repeat split; auto.
Qed.

(** The loop itself raises nothing but a missing attribute. *)
Lemma emit_rows_raised (df : DataFrame) (ks : list nat) (e : exn) :
  raised (emit_rows df ks) = Some e -> exists a, e = AttributeError a.
Proof.
  induction ks as [|k ks IH]; simpl; [discriminate|].
  unfold row_example, getattr.
  destruct (lookup "id" (columns df)); simpl;
    [|intros H; injection H as <-; eauto].
  destruct (lookup "text" (columns df)); simpl;
    [|intros H; injection H as <-; eauto].
  destruct (lookup "label" (columns df)); simpl;
    [|intros H; injection H as <-; eauto].
  exact IH.
Qed.

(** ** Frames through [reset_index], [concat], [drop] and [rename] *)

Lemma In_unique (x : string) (seen l : list string) :
  In x (unique seen l) <-> In x l /\ ~ In x seen.
Proof.
  revert seen. induction l as [|n l IH]; intros seen; simpl; [tauto|].
  destruct (mem n seen) eqn:Hn.
  - apply mem_In in Hn. rewrite IH. split.
    + intros [H1 H2]. auto.
    + intros [[<- | H1] H2]; [contradiction | auto].
  - apply mem_not_In in Hn. simpl. rewrite IH. simpl. split.
    + intros [<- | [H1 H2]]; [auto | split; [auto | tauto]].
    + intros [[<- | H1] H2]; [auto|].
      destruct (string_dec n x) as [-> | Hne]; [auto | right; tauto].
Qed.

Lemma In_union_labels (x : string) (dfs : list DataFrame) :
  In x (union_labels dfs) <-> exists df, In df dfs /\ In x (labels df).
Proof.
  unfold union_labels. rewrite In_unique, in_flat_map. simpl. tauto.
Qed.

Lemma lookup_named (f : string -> list cell) (name : string) (names : list string) :
  lookup name (map (fun n => (n, f n)) names)
  = if mem name names then Some (f name) else None.
Proof.
  induction names as [|n names IH]; simpl; [reflexivity|].
  destruct (String.eqb name n) eqn:E; simpl; [|exact IH].
  apply String.eqb_eq in E. now subst.
Qed.

Lemma lookup_drop_id (name : string) (cols : list (string * list cell)) :
  String.eqb name "id" = false ->
  lookup name (filter (fun c => negb (mem (fst c) ["id"])) cols) = lookup name cols.
Proof.
  intros Hne. induction cols as [|[n col] cols IH]; [reflexivity|].
  cbn [filter fst]. unfold mem at 1. cbn [existsb]. rewrite orb_false_r.
  destruct (String.eqb n "id") eqn:E; cbn [negb lookup].
  - apply String.eqb_eq in E. subst n. now rewrite Hne.
  - now rewrite IH.
Qed.

Lemma lookup_rename_index (name : string) (cols : list (string * list cell)) :
  String.eqb name "id" = false -> String.eqb name "index" = false ->
  lookup name (map (fun c => (renamed [("index", "id")] (fst c), snd c)) cols)
  = lookup name cols.
Proof.
  intros Hid Hidx. induction cols as [|[n col] cols IH]; [reflexivity|].
  cbn [map fst snd lookup].
  change (renamed [("index", "id")] n)
    with (if String.eqb n "index" then "id" else n).
  destruct (String.eqb n "index") eqn:E.
  - apply String.eqb_eq in E. subst n. now rewrite Hid, Hidx.
  - now rewrite IH.
Qed.

Lemma drop_id_Ok (df : DataFrame) :
  mem "id" (labels df) = true ->
  drop ["id"] df
  = inr {| index := index df;
           columns := filter (fun c => negb (mem (fst c) ["id"])) (columns df) |}.
Proof. unfold drop. cbn [forallb]. now intros ->. Qed.

Lemma reset_index_fresh (df : DataFrame) :
  mem "index" (labels df) = false ->
  reset_index df
  = inr {| index := RangeIndex (nrows df);
           columns := ("index", map VInt (index df)) :: columns df |}.
Proof. unfold reset_index. intros H. cbv zeta. rewrite H. now rewrite H. Qed.

Lemma nth_range (k n : nat) :
  k < n -> nth k (map VInt (RangeIndex n)) VNaN = VInt (Z.of_nat k).
Proof.
  intros H. unfold RangeIndex. rewrite map_map.
  rewrite (nth_indep _ VNaN (VInt (Z.of_nat 0))) by now rewrite length_map, length_seq.
  rewrite (map_nth (fun i => VInt (Z.of_nat i))). now rewrite seq_nth.
Qed.

Lemma nrows_mk (i : list Z) (cols : list (string * list cell)) :
  nrows {| index := i; columns := cols |} = List.length i.
Proof. reflexivity. Qed.

Lemma length_RangeIndex (n : nat) : List.length (RangeIndex n) = n.
Proof. unfold RangeIndex. now rewrite length_map, length_seq. Qed.

(** ** The configuration name decides the branch *)

Lemma append_eqb_prefix (p a b : string) :
  String.eqb (p ++ a) (p ++ b) = String.eqb a b.
Proof.
  induction p as [|c p IH]; simpl; [reflexivity|].
  now rewrite Ascii.eqb_refl.
Qed.

Lemma length_append (a b : string) :
  String.length (a ++ b) = String.length a + String.length b.
Proof. induction a as [|c a IH]; simpl; [reflexivity | now rewrite IH]. Qed.

Lemma eqb_length (a b : string) :
  String.length a <> String.length b -> String.eqb a b = false.
Proof. intros H. apply String.eqb_neq. intros ->. now apply H. Qed.

Lemma lang_source_not_seacrowd_text (lang : string) :
  String.eqb (lang ++ "_source") "seacrowd_text" = false.
Proof.
  apply String.eqb_neq. intros H.
  assert (Hlen : String.length lang = 6).
  { apply (f_equal String.length) in H. rewrite length_append in H.
    simpl in H. lia. }
  do 7 (destruct lang as [|? lang]; try discriminate Hlen).
  simpl in H. congruence.
Qed.

(** A name built from a language code is never one of the two bare names,
    whatever the code. *)
Lemma all_languages_lang (lang schema : string) :
  schema = "source" \/ schema = "seacrowd_text" ->
  all_languages ("nusaparagraph_emot_" ++ lang ++ "_" ++ schema) = false.
Proof.
  unfold all_languages.
  change "nusaparagraph_emot_source" with ("nusaparagraph_emot_" ++ "source")%string.
  change "nusaparagraph_emot_seacrowd_text"
    with ("nusaparagraph_emot_" ++ "seacrowd_text")%string.
  rewrite !append_eqb_prefix.
  intros [-> | ->]; apply orb_false_iff; split.
  - apply eqb_length. rewrite length_append. simpl. lia.
  - apply lang_source_not_seacrowd_text.
  - apply eqb_length. rewrite length_append. simpl. lia.
  - apply eqb_length. rewrite length_append. simpl. lia.
Qed.

Lemma all_languages_bare (schema : string) :
  schema = "source" \/ schema = "seacrowd_text" ->
  all_languages ("nusaparagraph_emot_" ++ schema) = true.
Proof. now intros [-> | ->]. Qed.

Lemma known_schema_cases (s : string) :
  negb (String.eqb s "source") && negb (String.eqb s "seacrowd_text") = false
  <-> s = "source" \/ s = "seacrowd_text".
Proof.
  rewrite <- negb_orb, negb_false_iff, orb_true_iff, !String.eqb_eq. tauto.
Qed.

(** What the constructor returns when it returns. *)
Lemma constructor_inv (lang sch ver : string) (config : SEACrowdConfig) :
  seacrowd_config_constructor lang sch ver = inr config ->
  (sch = "source" \/ sch = "seacrowd_text")
  /\ valid_version ver = true
  /\ bad_name (name config) = false
  /\ schema config = sch
  /\ name config
     = if String.eqb lang ""
       then ("nusaparagraph_emot_" ++ sch)%string
       else ("nusaparagraph_emot_" ++ lang ++ "_" ++ sch)%string.
Proof.
  unfold seacrowd_config_constructor, datasets_Version, new_SEACrowdConfig.
  destruct (negb (String.eqb sch "source")
            && negb (String.eqb sch "seacrowd_text")) eqn:E; [discriminate|].
  apply known_schema_cases in E.
  destruct (String.eqb lang ""); destruct (valid_version ver);
    cbn [bind Ok Raise name]; try discriminate;
    match goal with |- context [bad_name ?n] => destruct (bad_name n) eqn:Hbad end;
    try discriminate; intros H; injection H as <-; cbn [name schema]; auto.
Qed.

Lemma constructor_Ok (lang sch ver : string) (config : SEACrowdConfig) :
  seacrowd_config_constructor lang sch ver = inr config ->
  (sch = "source" \/ sch = "seacrowd_text")
  /\ schema config = sch
  /\ all_languages (name config) = String.eqb lang "".
Proof.
  intros H. apply constructor_inv in H as (Hsch & _ & _ & Hs & Hname).
  split; [assumption|]. split; [assumption|]. rewrite Hname.
  destruct (String.eqb lang "").
  - now apply all_languages_bare.
  - now apply all_languages_lang.
Qed.

(** ** Emission over one file *)

Lemma csv_cell_nil (c : Csv) (name : string) : csv_cell c name [] = VNaN.
Proof. unfold csv_cell. now destruct (position name (header c)). Qed.

Lemma nth_csv_column (c : Csv) (name : string) (k : nat) :
  nth k (csv_column c name) VNaN = csv_cell c name (nth k (body c) []).
Proof.
  unfold csv_column. rewrite <- (csv_cell_nil c name) at 1.
  apply (map_nth (csv_cell c name)).
Qed.

Lemma emot_header_cases (c : Csv) :
  emot_header c = true ->
  mem "id" (header c) = true /\ mem "text" (header c) = true
  /\ mem "label" (header c) = true /\ mem "index" (header c) = false.
Proof.
  unfold emot_header. rewrite !andb_true_iff, negb_true_iff. tauto.
Qed.

Section Emission.

Variable files : string -> read_error + Csv.

(** ** Emission over several files *)

Lemma read_all (ps : list string) (cs : list Csv) :
  Forall2 (fun p c => files p = inr c /\ emot_header c = true) ps cs ->
  mapM (read_csv files) ps = inr (map frame_of cs).
Proof.
  intros H. apply mapM_Forall2.
  induction H as [|p c ps cs [Hp _] _ IH]; simpl; constructor; auto.
  now apply read_csv_frame.
Qed.

Lemma stacked_frame (dfs : list DataFrame) :
  dfs <> [] ->
  mem "index" (union_labels dfs) = false ->
  mem "id" (union_labels dfs) = true ->
  (df <- concat dfs ;; df <- reset_index df ;; df <- drop ["id"] df ;;
   Ok (rename [("index", "id")] df))
  = inr {| index := RangeIndex (list_sum (map nrows dfs));
           columns :=
             ("id", map VInt (RangeIndex (list_sum (map nrows dfs))))
             :: map (fun c => (renamed [("index", "id")] (fst c), snd c))
                  (filter (fun c => negb (mem (fst c) ["id"]))
                     (map (fun n => (n, flat_map (column_or_nan n) dfs))
                          (union_labels dfs))) |}.
Proof.
  intros Hne Hindex Hid. destruct dfs as [|df0 dfs']; [congruence|].
  change (concat (df0 :: dfs'))
    with (Ok {| index := RangeIndex (list_sum (map nrows (df0 :: dfs')));
                columns :=
                  map (fun n => (n, flat_map (column_or_nan n) (df0 :: dfs')))
                      (union_labels (df0 :: dfs')) |}).
  clear Hne. revert Hindex Hid. generalize (df0 :: dfs'). clear df0 dfs'.
  intros dfs Hindex Hid. cbn [bind Ok].
  assert (Hlabels : forall i,
    labels {| index := i;
              columns := map (fun n => (n, flat_map (column_or_nan n) dfs))
                             (union_labels dfs) |} = union_labels dfs).
  { intros i. unfold labels. cbn [columns]. rewrite map_map. cbn [fst].
    apply map_id. }
  rewrite reset_index_fresh by now rewrite Hlabels.
  cbn [bind]. unfold nrows at 1. cbn [index columns].
  rewrite length_RangeIndex, drop_id_Ok.
  - cbn [bind]. unfold rename. cbn [index columns filter fst].
    change (negb (mem "index" ["id"])) with true. cbv iota.
    cbn [map fst snd]. reflexivity.
  - unfold labels. cbn [columns map fst]. rewrite map_map. cbn [fst].
    rewrite map_id. exact Hid.
Qed.

Lemma union_has (name : string) (cs : list Csv) :
  cs <> [] ->
  Forall (fun c => mem name (header c) = true) cs ->
  mem name (union_labels (map frame_of cs)) = true.
Proof.
  intros Hne H. destruct cs as [|c cs]; [congruence|].
  apply mem_In, In_union_labels. exists (frame_of c). split; [now left|].
  rewrite labels_frame_of. apply mem_In. now inversion H.
Qed.

Lemma union_lacks (name : string) (cs : list Csv) :
  Forall (fun c => mem name (header c) = false) cs ->
  mem name (union_labels (map frame_of cs)) = false.
Proof.
  intros H. apply mem_not_In. rewrite In_union_labels.
  intros [df [Hdf Hin]]. apply in_map_iff in Hdf as [c [<- Hc]].
  rewrite labels_frame_of in Hin. rewrite Forall_forall in H.
  apply mem_In in Hin. rewrite (H c Hc) in Hin. discriminate.
Qed.

Lemma stacked_nrows (cs : list Csv) :
  list_sum (map nrows (map frame_of cs)) = List.length (stacked_rows cs).
Proof.
  unfold stacked_rows. rewrite length_flat_map_sum, map_map. f_equal.
  apply map_ext. intros c. now rewrite nrows_frame_of, length_map.
Qed.

Lemma stacked_column (name : string) (cs : list Csv) :
  Forall (fun c => mem name (header c) = true) cs ->
  flat_map (column_or_nan name) (map frame_of cs)
  = flat_map (fun c => csv_column c name) cs.
Proof.
  induction 1 as [|c cs Hc _ IH]; simpl; [reflexivity|].
  now rewrite column_or_nan_frame_of, IH.
Qed.

Lemma stacked_texts (cs : list Csv) :
  flat_map (fun c => csv_column c "text") cs = map fst (stacked_rows cs).
Proof.
  unfold stacked_rows, csv_column.
  induction cs as [|c cs IH]; simpl; [reflexivity|].
  now rewrite map_app, map_map, IH.
Qed.

Lemma stacked_labels (cs : list Csv) :
  flat_map (fun c => csv_column c "label") cs = map snd (stacked_rows cs).
Proof.
  unfold stacked_rows, csv_column.
  induction cs as [|c cs IH]; simpl; [reflexivity|].
  now rewrite map_app, map_map, IH.
Qed.

(** The all-languages branch: the rows of the files stacked in list order,
    each under its position as a fresh [id]. *)
Lemma generate_all (config : SEACrowdConfig) (ps : list string) (cs : list Csv) :
  schema config = "source" \/ schema config = "seacrowd_text" ->
  all_languages (name config) = true ->
  ps <> [] ->
  Forall2 (fun p c => files p = inr c /\ emot_header c = true) ps cs ->
  _generate_examples files config (PathList ps)
  = {| yielded :=
         map (fun p => record_of (VInt (Z.of_nat (fst p))) (fst (snd p))
                                 (snd (snd p)))
             (combine (seq 0 (List.length (stacked_rows cs))) (stacked_rows cs));
       raised := None |}.
Proof.
  intros Hs Hall Hne H.
  assert (Hcs : cs <> []) by (destruct H; congruence).
  assert (Hhead : Forall (fun c => emot_header c = true) cs).
  { clear -H. induction H as [|p c ps cs [_ Hc] _ IH]; constructor; auto. }
  assert (Hcol : forall name,
             (name = "id" \/ name = "text" \/ name = "label") ->
             Forall (fun c => mem name (header c) = true) cs).
  { intros name Hn. eapply Forall_impl; [|exact Hhead]. intros c Hc.
    apply emot_header_cases in Hc. destruct Hn as [-> | [-> | ->]]; tauto. }
  assert (Hidx : Forall (fun c => mem "index" (header c) = false) cs).
  { eapply Forall_impl; [|exact Hhead]. intros c Hc.
    apply emot_header_cases in Hc. tauto. }
  unfold _generate_examples, load_frame.
  rewrite (proj2 (known_schema_cases _) Hs), Hall, (read_all ps cs H).
  cbn [bind negb andb].
  rewrite stacked_frame;
    [ | destruct cs; [congruence | discriminate]
      | now apply union_lacks | apply union_has; auto ].
  rewrite (emit_rows_columns _
             (map VInt (RangeIndex (list_sum (map nrows (map frame_of cs)))))
             (flat_map (column_or_nan "text") (map frame_of cs))
             (flat_map (column_or_nan "label") (map frame_of cs))).
  - f_equal. rewrite nrows_mk, length_RangeIndex, !stacked_column by auto.
    rewrite stacked_texts, stacked_labels, stacked_nrows.
    rewrite <- (map_seq_combine
                  (fun k x => record_of (VInt (Z.of_nat k)) (fst x) (snd x))
                  (VNaN, VNaN) (stacked_rows cs) 0).
    apply map_ext_in. intros k Hk. apply in_seq in Hk. cbn [Nat.add].
    rewrite nth_range by lia.
    now rewrite (map_nth fst (stacked_rows cs) (VNaN, VNaN)),
                (map_nth snd (stacked_rows cs) (VNaN, VNaN)).
  - reflexivity.
  - cbn [columns lookup]. change (String.eqb "text" "id") with false.
    cbv iota.
    rewrite lookup_rename_index, lookup_drop_id, lookup_named by reflexivity.
    now rewrite union_has by auto.
  - cbn [columns lookup]. change (String.eqb "label" "id") with false.
    cbv iota.
    rewrite lookup_rename_index, lookup_drop_id, lookup_named by reflexivity.
    now rewrite union_has by auto.
Qed.

(** ** What holds of every run, whatever the files *)

Lemma reset_index_inv (df df' : DataFrame) :
  reset_index df = inr df' ->
  exists nm, (nm = "index" \/ nm = "level_0")
             /\ df' = {| index := RangeIndex (nrows df);
                         columns := (nm, map VInt (index df)) :: columns df |}.
Proof.
  unfold reset_index. cbv zeta.
  destruct (mem "index" (labels df));
    match goal with |- context [mem ?n (labels df)] =>
      destruct (mem n (labels df)); [discriminate|] end;
    intros H; injection H as <-; eauto.
Qed.

Lemma drop_id_inv (df df' : DataFrame) :
  drop ["id"] df = inr df' ->
  df' = {| index := index df;
           columns := filter (fun c => negb (mem (fst c) ["id"])) (columns df) |}.
Proof.
  unfold drop. destruct (forallb _ _); [|discriminate].
  intros H. now injection H as <-.
Qed.

Lemma concat_inv (dfs : list DataFrame) (df : DataFrame) :
  concat dfs = inr df ->
  df = {| index := RangeIndex (list_sum (map nrows dfs));
          columns := map (fun n => (n, flat_map (column_or_nan n) dfs))
                         (union_labels dfs) |}.
Proof. destruct dfs; [discriminate|]. intros H. now injection H as <-. Qed.

(** Two configurations that pass the schema test and take the same branch
    emit alike. *)
Lemma generate_examples_ext (config1 config2 : SEACrowdConfig) (fp : filepath) :
  schema config1 = "source" \/ schema config1 = "seacrowd_text" ->
  schema config2 = "source" \/ schema config2 = "seacrowd_text" ->
  all_languages (name config1) = all_languages (name config2) ->
  _generate_examples files config1 fp = _generate_examples files config2 fp.
Proof.
  intros H1 H2 Hall. unfold _generate_examples, load_frame.
  now rewrite (proj2 (known_schema_cases _) H1),
              (proj2 (known_schema_cases _) H2), Hall.
Qed.

(** ** What example emission can raise *)

Lemma bind_Raise {A B : Type} (m : result A) (k : A -> result B) (e : exn) :
  bind m k = inl e -> m = inl e \/ exists a, m = inr a /\ k a = inl e.
Proof.
  destruct m as [e'|a]; simpl; intros H; [left | right; eauto].
  now injection H as ->.
Qed.

Lemma read_csv_raises (p : string) (e : exn) :
  read_csv files p = inl e -> exists r, e = ReadError r.
Proof.
  unfold read_csv. destruct (files p) as [r|c]; [|discriminate].
  intros H. injection H as <-. eauto.
Qed.

Lemma mapM_read_csv_raises (ps : list string) (e : exn) :
  mapM (read_csv files) ps = inl e -> exists r, e = ReadError r.
Proof.
  induction ps as [|p ps IH]; simpl; [discriminate|].
  intros H. apply bind_Raise in H as [H | [df [_ H]]].
  - now apply read_csv_raises in H.
  - apply bind_Raise in H as [H | [dfs [_ H]]]; [auto | discriminate].
Qed.

Lemma reset_index_raises (df : DataFrame) (e : exn) :
  reset_index df = inl e ->
  exists nm, e = ValueError ("cannot insert " ++ nm ++ ", already exists")%string.
Proof.
  unfold reset_index. cbv zeta.
  destruct (mem "index" (labels df));
    match goal with |- context [mem ?n (labels df)] =>
      destruct (mem n (labels df)); [|discriminate] end;
    intros H; injection H as <-;
    first [exists "level_0"; reflexivity | exists "index"; reflexivity].
Qed.

Lemma concat_raises (dfs : list DataFrame) (e : exn) :
  concat dfs = inl e -> e = ValueError "No objects to concatenate".
Proof. destruct dfs; [|discriminate]. intros H. now injection H as <-. Qed.

Lemma drop_raises (names : list string) (df : DataFrame) (e : exn) :
  drop names df = inl e -> exists msg, e = KeyError msg.
Proof.
  unfold drop. destruct (forallb _ _); [discriminate|].
  intros H. injection H as <-. eauto.
Qed.

(** Building the frame never raises the error of the schema test. *)
Lemma load_frame_raises (config : SEACrowdConfig) (fp : filepath) (e : exn)
      (n : string) :
  load_frame files config fp = inl e ->
  e <> ValueError ("Invalid config: " ++ n)%string.
Proof.
  unfold load_frame. destruct (all_languages (name config)); intros H.
  - apply bind_Raise in H as [H | [ldf [_ H]]].
    { destruct fp as [p|ps].
      - injection H as <-. discriminate.
      - apply mapM_read_csv_raises in H as [r ->]. discriminate. }
    apply bind_Raise in H as [H | [df1 [_ H]]].
    { apply concat_raises in H as ->. simpl. congruence. }
    apply bind_Raise in H as [H | [df2 [_ H]]].
    { apply reset_index_raises in H as [nm ->]. simpl. congruence. }
    apply bind_Raise in H as [H | [df3 [_ H]]]; [|discriminate].
    apply drop_raises in H as [msg ->]. discriminate.
  - apply bind_Raise in H as [H | [df [_ H]]].
    { destruct fp as [p|ps].
      - apply read_csv_raises in H as [r ->]. discriminate.
      - injection H as <-. simpl. congruence. }
    apply reset_index_raises in H as [nm ->]. simpl. congruence.
Qed.

End Emission.

(** ** Split resolution *)

Lemma split_field (sep : ascii) (a b : string) :
  contains sep a = false ->
  split sep (a ++ String sep b) = a :: split sep b.
Proof.
  induction a as [|c a IH]; simpl.
  - now rewrite Ascii.eqb_refl.
  - intros H. apply orb_false_iff in H as [Hc Ha].
    now rewrite Hc, (IH Ha).
Qed.

(** The third [_]-separated field of a name built from a language code is
    that code, when the code has no [_] of its own. *)
Lemma name_language (lang sch : string) :
  contains "_"%char lang = false ->
  getitem (split "_"%char ("nusaparagraph_emot_" ++ lang ++ "_" ++ sch)) 2
  = inr lang.
Proof.
  intros H.
  change ("nusaparagraph_emot_" ++ lang ++ "_" ++ sch)%string
    with ("nusaparagraph" ++ String "_"%char
            ("emot" ++ String "_"%char (lang ++ String "_"%char sch)))%string.
  now rewrite !split_field by (assumption || reflexivity).
Qed.

Lemma split_urls_train :
  mapM (split_url "train") (keys LANGUAGES_MAP)
  = inr (map train_url (keys LANGUAGES_MAP)).
Proof. reflexivity. Qed.

Lemma split_urls_validation :
  mapM (split_url "validation") (keys LANGUAGES_MAP)
  = inr (map validation_url (keys LANGUAGES_MAP)).
Proof. reflexivity. Qed.

Lemma split_urls_test :
  mapM (split_url "test") (keys LANGUAGES_MAP)
  = inr (map test_url (keys LANGUAGES_MAP)).
Proof. reflexivity. Qed.

Section Resolution.

Variable fetch : string -> result string.
Variable local : string -> string.
Hypothesis fetch_local : forall url, fetch url = inr (local url).

Lemma split_generators_all (config : SEACrowdConfig) (log : list request) :
  all_languages (name config) = true ->
  _split_generators fetch config log
  = (inr [ {| split_name := TRAIN;
              gen_kwargs :=
                PathList (map local (map train_url (keys LANGUAGES_MAP))) |};
           {| split_name := VALIDATION;
              gen_kwargs :=
                PathList (map local (map validation_url (keys LANGUAGES_MAP))) |};
           {| split_name := TEST;
              gen_kwargs :=
                PathList (map local (map test_url (keys LANGUAGES_MAP))) |} ],
     log ++ [ FetchMany (map train_url (keys LANGUAGES_MAP));
              FetchMany (map validation_url (keys LANGUAGES_MAP));
              FetchMany (map test_url (keys LANGUAGES_MAP)) ]).
Proof.
  intros Hall. unfold _split_generators. rewrite Hall.
  unfold dl_bind, dl_ret, download_and_extract_list.
  rewrite split_urls_train, split_urls_validation, split_urls_test.
  rewrite !(mapM_total fetch local _ fetch_local).
  unfold Ok. now rewrite <- !app_assoc.
Qed.

Lemma split_generators_one (config : SEACrowdConfig) (lang : string)
      (log : list request) :
  all_languages (name config) = false ->
  getitem (split "_"%char (name config)) 2 = inr lang ->
  _split_generators fetch config log
  = (inr [ {| split_name := TRAIN; gen_kwargs := OnePath (local (train_url lang)) |};
           {| split_name := VALIDATION;
              gen_kwargs := OnePath (local (validation_url lang)) |};
           {| split_name := TEST; gen_kwargs := OnePath (local (test_url lang)) |} ],
     log ++ [ FetchOne (train_url lang); FetchOne (validation_url lang);
              FetchOne (test_url lang) ]).
Proof.
  intros Hall Hlang. unfold _split_generators. rewrite Hall.
  unfold dl_bind, dl_ret, download_and_extract. rewrite Hlang.
  change (split_url "train" lang) with (@inr exn string (train_url lang)).
  change (split_url "validation" lang) with (@inr exn string (validation_url lang)).
  change (split_url "test" lang) with (@inr exn string (test_url lang)).
  cbv beta iota. rewrite !fetch_local.
  unfold Ok. now rewrite <- !app_assoc.
Qed.

End Resolution.

Lemma distinct_NoDup (l : list string) : distinct l = true -> NoDup l.
Proof.
  induction l as [|s l IH]; simpl; intros H; constructor.
  - apply andb_true_iff in H as [H _]. apply negb_true_iff in H.
    now apply mem_not_In.
  - apply IH. now apply andb_true_iff in H as [_ H].
Qed.

Lemma reset_index_frame_of (c : Csv) :
  reset_index (frame_of c)
  = if mem "index" (header c) && mem "level_0" (header c)
    then inl (ValueError "cannot insert level_0, already exists")
    else inr {| index := RangeIndex (List.length (body c));
                columns :=
                  ((if mem "index" (header c) then "level_0" else "index"),
                   map VInt (RangeIndex (List.length (body c))))
                  :: columns (frame_of c) |}.
Proof.
  unfold reset_index. cbv zeta. rewrite labels_frame_of, nrows_frame_of.
  destruct (mem "index" (header c)) eqn:E; cbn [andb].
  - now destruct (mem "level_0" (header c)).
  - now rewrite E.
Qed.

Lemma lookup_after_reset (c : Csv) (name : string) (col : list cell) :
  String.eqb name "index" = false -> String.eqb name "level_0" = false ->
  lookup name
    (((if mem "index" (header c) then "level_0" else "index"), col)
     :: columns (frame_of c))
  = if mem name (header c) then Some (csv_column c name) else None.
Proof.
  intros H1 H2. cbn [lookup].
  replace (String.eqb name (if mem "index" (header c) then "level_0" else "index"))
    with false by (now destruct (mem "index" (header c))).
  apply lookup_frame_of.
Qed.

(** The single-file branch over a file with the three columns: the
    [ValueError] of [reset_index] when the file has both an [index] and a
    [level_0] column, and otherwise every row, in order, under the file's
    own [id]. *)
Lemma generate_single_columns
      (files : string -> read_error + Csv) (config : SEACrowdConfig)
      (p : string) (c : Csv) :
  schema config = "source" \/ schema config = "seacrowd_text" ->
  all_languages (name config) = false ->
  files p = inr c ->
  mem "id" (header c) = true ->
  mem "text" (header c) = true ->
  mem "label" (header c) = true ->
  _generate_examples files config (OnePath p)
  = if mem "index" (header c) && mem "level_0" (header c)
    then {| yielded := [];
            raised := Some (ValueError "cannot insert level_0, already exists") |}
    else {| yielded :=
              map (fun r => record_of (csv_cell c "id" r) (csv_cell c "text" r)
                                      (csv_cell c "label" r)) (body c);
            raised := None |}.
Proof.
  intros Hs Hall Hp Hid Htext Hlabel.
  unfold _generate_examples, load_frame.
  rewrite (proj2 (known_schema_cases _) Hs), Hall.
  rewrite (read_csv_frame files p c Hp). cbn [bind].
  rewrite reset_index_frame_of.
  destruct (mem "index" (header c) && mem "level_0" (header c)); [reflexivity|].
  rewrite (emit_rows_columns _ (csv_column c "id") (csv_column c "text")
                             (csv_column c "label")).
  - f_equal. rewrite nrows_mk, length_RangeIndex.
    rewrite <- (map_nth_seq _ [] (body c)).
    apply map_ext. intros k. now rewrite !nth_csv_column.
  - cbn [columns]. now rewrite lookup_after_reset, Hid by reflexivity.
  - cbn [columns]. now rewrite lookup_after_reset, Htext by reflexivity.
  - cbn [columns]. now rewrite lookup_after_reset, Hlabel by reflexivity.
Qed.

Lemma read_frames (files : string -> read_error + Csv)
      (ps : list string) (cs : list Csv) :
  Forall2 (fun p c => files p = inr c) ps cs ->
  mapM (read_csv files) ps = inr (map frame_of cs).
Proof.
  intros H. apply mapM_Forall2.
  induction H as [|p c ps cs Hp _ IH]; simpl; constructor; auto.
  now apply read_csv_frame.
Qed.

Lemma labels_concat (i : list Z) (dfs : list DataFrame) :
  labels {| index := i;
            columns := map (fun n => (n, flat_map (column_or_nan n) dfs))
                           (union_labels dfs) |}
  = union_labels dfs.
Proof. unfold labels. cbn [columns]. rewrite map_map. apply map_id. Qed.

(** ** The label column of the frame emission iterates *)

Lemma emit_rows_labels (df : DataFrame) (ks : list nat) (cl : list cell) :
  lookup "label" (columns df) = Some cl ->
  raised (emit_rows df ks) = None ->
  map (fun y => ex_label (snd y)) (yielded (emit_rows df ks))
  = map (fun k => nth k cl VNaN) ks.
Proof.
  intros Hl.
  destruct (lookup "id" (columns df)) as [ci|] eqn:Hi;
    [destruct (lookup "text" (columns df)) as [ct|] eqn:Ht|].
  - intros _. rewrite (emit_rows_columns df ci ct cl ks Hi Ht Hl).
    cbn [yielded]. now rewrite map_map.
  - destruct ks as [|k ks]; [reflexivity|]. simpl.
    unfold row_example, getattr. rewrite Hi, Ht. discriminate.
  - destruct ks as [|k ks]; [reflexivity|]. simpl.
    unfold row_example, getattr. rewrite Hi. discriminate.
Qed.

Lemma load_frame_label_column
      (files : string -> read_error + Csv) (config : SEACrowdConfig)
      (fp : filepath) (cs : list Csv) (df : DataFrame) :
  Forall2 (fun p c => files p = inr c /\ mem "label" (header c) = true)
          (paths_of fp) cs ->
  load_frame files config fp = inr df ->
  lookup "label" (columns df) = Some (flat_map (fun c => csv_column c "label") cs)
  /\ nrows df = List.length (flat_map (fun c => csv_column c "label") cs).
Proof.
  intros Hfiles.
  assert (Hread : Forall2 (fun p c => files p = inr c) (paths_of fp) cs)
    by (eapply Forall2_impl; [|exact Hfiles]; now intros p c [H _]).
  assert (Hlab : Forall (fun c => mem "label" (header c) = true) cs).
  { clear -Hfiles. induction Hfiles as [|p c ps cs [_ H] _ IH]; constructor; auto. }
  assert (Hlen : list_sum (map nrows (map frame_of cs))
                 = List.length (flat_map (fun c => csv_column c "label") cs)).
  { rewrite length_flat_map_sum, map_map. f_equal. apply map_ext. intros c.
    unfold csv_column. now rewrite nrows_frame_of, length_map. }
  unfold load_frame. destruct (all_languages (name config)).
  - destruct fp as [p|ps]; [discriminate|]. cbn [paths_of] in Hread.
    rewrite (read_frames files ps cs Hread). cbn [bind].
    intros H. apply bind_Ok in H as [df1 [Hcat H]].
    apply bind_Ok in H as [df2 [Hreset H]].
    apply bind_Ok in H as [df3 [Hdrop H]]. injection H as <-.
    assert (Hcs : cs <> []) by (intros ->; discriminate Hcat).
    apply concat_inv in Hcat. apply reset_index_inv in Hreset as [nm [Hnm ->]].
    apply drop_id_inv in Hdrop. subst df3 df1.
    unfold rename. cbn [columns index]. split.
    + rewrite lookup_rename_index, lookup_drop_id by reflexivity.
      cbn [lookup].
      replace (String.eqb "label" nm) with false
        by (destruct Hnm as [-> | ->]; reflexivity).
      rewrite lookup_named, (union_has "label" cs Hcs Hlab).
      now rewrite stacked_column.
    + now rewrite nrows_mk, length_RangeIndex, nrows_mk, length_RangeIndex.
  - destruct fp as [p|ps]; [|discriminate]. cbn [paths_of] in Hread, Hfiles.
    inversion Hread as [|p' c ps' cs' Hp Hnil]; subst. inversion Hnil; subst.
    inversion Hlab as [|c' cs' Hm _]; subst.
    rewrite (read_csv_frame files p c Hp). cbn [bind].
    intros H. apply reset_index_inv in H as [nm [Hnm ->]].
    cbn [columns lookup flat_map]. rewrite app_nil_r. split.
    + replace (String.eqb "label" nm) with false
        by (destruct Hnm as [-> | ->]; reflexivity).
      now rewrite lookup_frame_of, Hm.
    + rewrite nrows_mk, length_RangeIndex, nrows_frame_of.
      unfold csv_column. now rewrite length_map.
Qed.

(** ** The characters refused in a name *)

Lemma any_char_or (f g : ascii -> bool) (s : string) :
  any_char (fun c => f c || g c) s = any_char f s || any_char g s.
Proof.
  induction s as [|c s IH]; simpl; [reflexivity|]. rewrite IH.
  destruct (f c), (g c), (any_char f s), (any_char g s); reflexivity.
Qed.

Lemma any_char_ext (f g : ascii -> bool) (s : string) :
  (forall c, f c = g c) -> any_char f s = any_char g s.
Proof.
  intros H. induction s as [|c s IH]; simpl; [reflexivity|]. now rewrite H, IH.
Qed.

Lemma bad_name_cons (c : ascii) (s : string) :
  bad_name (String c s) = bad_name (String c EmptyString) || bad_name s.
Proof.
  unfold bad_name. rewrite <- any_char_or. apply any_char_ext. intros bad.
  simpl. now rewrite orb_false_r.
Qed.

Lemma bad_name_append (a b : string) :
  bad_name (a ++ b) = bad_name a || bad_name b.
Proof.
  induction a as [|c a IH]; [reflexivity|].
  change (String c a ++ b)%string with (String c (a ++ b)).
  rewrite bad_name_cons, IH, (bad_name_cons c a). now rewrite orb_assoc.
Qed.

(** Only the language code can bring a refused character into a name. *)
Lemma bad_name_of_lang (lang sch : string) :
  sch = "source" \/ sch = "seacrowd_text" ->
  bad_name ("nusaparagraph_emot_" ++ sch) = false
  /\ bad_name ("nusaparagraph_emot_" ++ lang ++ "_" ++ sch) = bad_name lang.
Proof.
  intros [-> | ->]; (split; [reflexivity|]);
    rewrite !bad_name_append;
    (change (bad_name "nusaparagraph_emot_") with false);
    (change (bad_name "_") with false); cbn [orb].
  - change (bad_name "source") with false. now rewrite orb_false_r.
  - change (bad_name "seacrowd_text") with false. now rewrite orb_false_r.
Qed.

(** * The properties *)

(** ** Example emission: identifiers *)

(** C1 (as amended). For every single-language configuration and every
    split file that has the columns [id], [text] and [label] (and not both a
    column [index] and a column [level_0]) and whose [id] column is read as
    it stands (all integers, or no integer), emission ends normally, having
    yielded one pair per row of the file, in row order, and the emitted keys
    and [id] values are the values of the file's own [id] column: the rows
    are not renumbered. *)
Theorem single_language_ids
        (files : string -> read_error + Csv) (lang sch ver : string)
        (config : SEACrowdConfig) (p : string) (c : Csv) :
  seacrowd_config_constructor lang sch ver = inr config ->
  lang <> "" ->
  files p = inr c ->
  mem "id" (header c) = true ->
  mem "text" (header c) = true ->
  mem "label" (header c) = true ->
  mem "index" (header c) && mem "level_0" (header c) = false ->
  plain_column (csv_column c "id") = true ->
  raised (_generate_examples files config (OnePath p)) = None
  /\ map fst (yielded (_generate_examples files config (OnePath p)))
     = csv_column c "id"
  /\ map (fun y => ex_id (snd y))
         (yielded (_generate_examples files config (OnePath p)))
     = map str (csv_column c "id")
  /\ List.length (yielded (_generate_examples files config (OnePath p)))
     = List.length (body c).
Proof.
  intros Hcfg Hlang Hp Hid Htext Hlabel Hreset _.
  apply constructor_Ok in Hcfg as (Hsch & Hs & Hall).
  apply String.eqb_neq in Hlang. rewrite Hlang in Hall. rewrite <- Hs in Hsch.
  rewrite (generate_single_columns files config p c Hsch Hall Hp Hid Htext Hlabel),
    Hreset.
  cbn [yielded raised]. unfold csv_column. rewrite !map_map. cbn [record_of fst snd ex_id].
  repeat split. apply length_map.
Qed.

(** C1, on the Javanese sample file: its rows come out under 5 and 9. *)
Lemma single_language_ids_witness :
  seacrowd_config_constructor "jav" "source" "1.0.0" = inr Sample.jav_source
  /\ map fst (yielded (_generate_examples Sample.disk Sample.jav_source
                                          (OnePath (Sample.train_path "jav"))))
     = [VInt 5; VInt 9].
Proof.
  split; [reflexivity|].
  apply (single_language_ids Sample.disk "jav" "source" "1.0.0" Sample.jav_source
                             (Sample.train_path "jav") Sample.jav_train);
    [reflexivity | discriminate | reflexivity | reflexivity | reflexivity
     | reflexivity | reflexivity | reflexivity].
Defined.

(** C1 as stated fails: a single-language configuration over a file whose
    [id] column reads 5, 9 emits the keys 5, 9 and the ids "5", "9", not the
    range 0, 1. *)
Lemma single_language_ids_not_renumbered :
  seacrowd_config_constructor "jav" "source" "1.0.0" = inr Sample.jav_source
  /\ yielded (_generate_examples Sample.disk Sample.jav_source
                                 (OnePath (Sample.train_path "jav")))
     = [ (VInt 5, {| ex_id := "5"; ex_text := VStr "a"; ex_label := VStr "happy" |});
         (VInt 9, {| ex_id := "9"; ex_text := VStr "b"; ex_label := VStr "sad" |}) ]
  /\ map fst (yielded (_generate_examples Sample.disk Sample.jav_source
                                          (OnePath (Sample.train_path "jav"))))
     <> map VInt (RangeIndex 2).
Proof.
  split; [reflexivity|]. split; [reflexivity|]. vm_compute. discriminate.
Qed.

(** C2, at a failing input. An all-languages configuration over a file
    that has, besides [id], [text] and [label], a column of its own named
    [index]: [reset_index] then names its fresh numbering [level_0], and the
    rename turns the file's [index] column into [id]. The two rows come out
    under the key 7 and the [id] "7", the values of that column, not under
    0 and 1. *)
Lemma all_languages_ids_repeat_on_index_file :
  seacrowd_config_constructor "" "source" "1.0.0" = inr Sample.all_source
  /\ yielded (_generate_examples (fun _ => inr Sample.indexed_train)
                                 Sample.all_source (PathList ["/cache/indexed.csv"]))
     = [ (VInt 7, {| ex_id := "7"; ex_text := VStr "a"; ex_label := VStr "happy" |});
         (VInt 7, {| ex_id := "7"; ex_text := VStr "b"; ex_label := VStr "sad" |}) ]
  /\ map fst (yielded (_generate_examples (fun _ => inr Sample.indexed_train)
                          Sample.all_source (PathList ["/cache/indexed.csv"])))
     <> map VInt (RangeIndex 2).
Proof.
  split; [reflexivity|]. split; [reflexivity|]. vm_compute. discriminate.
Qed.

(** ** Example emission: labels *)

(** C3 (as amended). Under the normalized schema variant the label set
    declared is the seven emotions, and a run of example emission that ends
    normally, over files that have a [label] column read and stacked as it
    stands, hands every row's label on unchanged: the emitted labels are, in
    order, the labels of the rows of the files read. Emission tests no
    label, so every emitted label is one of the seven exactly when every
    label in the files is. *)
Theorem normalized_labels_pass_through
        (files : string -> read_error + Csv) (config : SEACrowdConfig)
        (fp : filepath) (names : list string) (cs : list Csv) :
  declared_labels config = Some names ->
  Forall2 (fun p c => files p = inr c /\ mem "label" (header c) = true)
          (paths_of fp) cs ->
  plain_column (flat_map (fun c => csv_column c "label") cs) = true ->
  raised (_generate_examples files config fp) = None ->
  names = emotions
  /\ map (fun y => ex_label (snd y)) (yielded (_generate_examples files config fp))
     = flat_map (fun c => csv_column c "label") cs
  /\ (forallb (label_in names)
              (map (fun y => ex_label (snd y))
                   (yielded (_generate_examples files config fp)))
      = forallb (label_in names) (flat_map (fun c => csv_column c "label") cs)).
Proof.
  intros Hdecl Hfiles _ Hraised.
  assert (Hnames : names = emotions).
  { unfold declared_labels, _info in Hdecl.
    destruct (String.eqb (schema config) "source"); [discriminate|].
    destruct (String.eqb (schema config) "seacrowd_text"); [|discriminate].
    now injection Hdecl as <-. }
  assert (Hlabels : map (fun y => ex_label (snd y))
                        (yielded (_generate_examples files config fp))
                    = flat_map (fun c => csv_column c "label") cs).
  { revert Hraised. unfold _generate_examples.
    destruct (negb _ && negb _); [discriminate|].
    destruct (load_frame files config fp) as [e|df] eqn:Hload; [discriminate|].
    destruct (load_frame_label_column files config fp cs df Hfiles Hload)
      as [Hl Hn].
    intros Hraised. rewrite (emit_rows_labels df _ _ Hl Hraised), Hn.
    rewrite (map_nth_seq (fun x => x) VNaN). apply map_id. }
  split; [exact Hnames|]. split; [exact Hlabels|]. now rewrite Hlabels.
Qed.

(** C3, on the Javanese sample file, whose labels are among the seven. *)
Lemma normalized_labels_pass_through_witness :
  declared_labels Sample.jav_seacrowd_text = Some emotions
  /\ map (fun y => ex_label (snd y))
         (yielded (_generate_examples Sample.disk Sample.jav_seacrowd_text
                                      (OnePath (Sample.train_path "jav"))))
     = [VStr "happy"; VStr "sad"].
Proof.
  split; [reflexivity|].
  exact (proj1 (proj2 (normalized_labels_pass_through Sample.disk
                         Sample.jav_seacrowd_text
                         (OnePath (Sample.train_path "jav")) emotions
                         [Sample.jav_train] eq_refl
                         ltac:(repeat constructor) eq_refl eq_refl))).
Defined.

(** C3 as stated fails: under the normalized schema variant a row labelled
    [joy] is emitted with the label [joy], which is none of the seven the
    configuration declares. *)
Lemma normalized_label_outside_set :
  seacrowd_config_constructor "mad" "seacrowd_text" "1.0.0"
  = inr Sample.mad_seacrowd_text
  /\ declared_labels Sample.mad_seacrowd_text = Some emotions
  /\ yielded (_generate_examples Sample.disk Sample.mad_seacrowd_text
                                 (OnePath (Sample.train_path "mad")))
     = [ (VInt 0, {| ex_id := "0"; ex_text := VStr "u"; ex_label := VStr "joy" |}) ]
  /\ ~ In "joy" emotions.
Proof.
  repeat split; try reflexivity.
  apply mem_not_In. reflexivity.
Qed.

(** ** The configuration registry *)

(** C4. The registry holds exactly 22 configurations: for each of the 10
    languages of the table one named [<dataset>_<lang>_<schema>] per schema,
    the [source] ones first, then the two all-languages configurations named
    [<dataset>_<schema>]; no two share a name. *)
Theorem registry_enumerates_22 :
  exists registry,
    BUILDER_CONFIGS = inr registry
    /\ List.length registry = 22
    /\ List.length (keys LANGUAGES_MAP) = 10
    /\ NoDup (keys LANGUAGES_MAP)
    /\ map (fun c => (name c, schema c)) registry
       = map (fun lang => ((_DATASETNAME ++ "_" ++ lang ++ "_source")%string,
                           "source"))
             (keys LANGUAGES_MAP)
         ++ map (fun lang =>
                   ((_DATASETNAME ++ "_" ++ lang ++ "_seacrowd_text")%string,
                    "seacrowd_text"))
                (keys LANGUAGES_MAP)
         ++ [ ((_DATASETNAME ++ "_source")%string, "source");
              ((_DATASETNAME ++ "_seacrowd_text")%string, "seacrowd_text") ]
    /\ NoDup (map name registry).
Proof.
  destruct BUILDER_CONFIGS as [e|registry] eqn:E; [discriminate|].
  exists registry. vm_compute in E. injection E as <-.
  split; [reflexivity|]. split; [reflexivity|]. split; [reflexivity|].
  split; [apply distinct_NoDup; reflexivity|].
  split; [reflexivity|].
  apply distinct_NoDup. reflexivity.
Qed.

(** C5 (as amended). The constructor raises the invalid-schema error at
    once for a schema name that is neither [source] nor [seacrowd_text],
    whatever the language and version. For either of the two it returns a
    configuration of that schema when the version reads x.y.z in digits and
    the language code has none of the characters refused in a name;
    otherwise the error of the framework comes out: the [ValueError] of
    [datasets.Version] first, else [InvalidConfigName]. *)
Theorem constructor_schema_check (lang sch ver : string) :
  (sch <> "source" -> sch <> "seacrowd_text" ->
   seacrowd_config_constructor lang sch ver = inl (InvalidSchemaError sch))
  /\ (sch = "source" \/ sch = "seacrowd_text" ->
      valid_version ver = true -> bad_name lang = false ->
      exists config,
        seacrowd_config_constructor lang sch ver = inr config
        /\ schema config = sch)
  /\ (sch = "source" \/ sch = "seacrowd_text" ->
      valid_version ver = false ->
      exists msg,
        seacrowd_config_constructor lang sch ver = inl (ValueError msg)
        /\ ValueError msg <> InvalidSchemaError sch)
  /\ (sch = "source" \/ sch = "seacrowd_text" ->
      valid_version ver = true -> bad_name lang = true ->
      exists msg,
        seacrowd_config_constructor lang sch ver = inl (InvalidConfigName msg)).
Proof.
  unfold seacrowd_config_constructor, datasets_Version, new_SEACrowdConfig.
  split; [|split; [|split]].
  - intros H1 H2. apply String.eqb_neq in H1, H2. now rewrite H1, H2.
  - intros H Hver Hlang. rewrite (proj2 (known_schema_cases sch) H), Hver.
    destruct (bad_name_of_lang lang sch H) as [Hbare Hname].
    destruct (String.eqb lang "") eqn:E; cbn [bind Ok name].
    + rewrite Hbare. eexists. split; reflexivity.
    + rewrite Hname, Hlang. eexists. split; reflexivity.
  - intros H Hver. rewrite (proj2 (known_schema_cases sch) H), Hver.
    eexists. split; [now destruct (String.eqb lang "")|].
    unfold InvalidSchemaError. simpl. congruence.
  - intros H Hver Hlang. rewrite (proj2 (known_schema_cases sch) H), Hver.
    destruct (bad_name_of_lang lang sch H) as [Hbare Hname].
    destruct (String.eqb lang "") eqn:E; cbn [bind Ok name].
    + apply String.eqb_eq in E. subst lang. discriminate Hlang.
    + rewrite Hname, Hlang. eexists. reflexivity.
Qed.

(** C5, on a schema name that is not recognized and on one that is. *)
Lemma constructor_schema_check_witness :
  seacrowd_config_constructor "jav" "seacrowd_qa" "1.0.0"
  = inl (ValueError "Invalid schema: seacrowd_qa")
  /\ exists config,
       seacrowd_config_constructor "jav" "source" "1.0.0" = inr config
       /\ schema config = "source".
Proof.
  split.
  - apply (proj1 (constructor_schema_check "jav" "seacrowd_qa" "1.0.0"));
      discriminate.
  - apply (proj1 (proj2 (constructor_schema_check "jav" "source" "1.0.0")));
      [now left | reflexivity | reflexivity].
Defined.

(** C5 as stated fails: with the recognized schema [source] the constructor
    still raises, on a version that does not read x.y.z and on a language
    code with a character refused in a name. *)
Lemma constructor_raises_on_recognized_schema :
  (exists msg,
     seacrowd_config_constructor "jav" "source" "abc" = inl (ValueError msg))
  /\ (exists msg,
        seacrowd_config_constructor "a/b" "source" "1.0.0"
        = inl (InvalidConfigName msg)).
Proof.
  split; eexists; reflexivity.
Qed.

(** ** Example emission: errors *)

(** C6. Example emission ends with the invalid-configuration error, having
    yielded nothing, exactly when the schema of the active configuration is
    neither [source] nor [seacrowd_text]. *)
Theorem invalid_config_iff
        (files : string -> read_error + Csv) (config : SEACrowdConfig)
        (fp : filepath) :
  (raised (_generate_examples files config fp)
   = Some (InvalidConfigError (name config))
   /\ yielded (_generate_examples files config fp) = [])
  <-> (schema config <> "source" /\ schema config <> "seacrowd_text").
Proof.
  unfold _generate_examples, InvalidConfigError.
  destruct (negb (String.eqb (schema config) "source")
            && negb (String.eqb (schema config) "seacrowd_text")) eqn:E.
  - split; [intros _ | now intros _].
    apply andb_true_iff in E as [E1 E2].
    apply negb_true_iff in E1, E2. now rewrite <- !String.eqb_neq.
  - apply known_schema_cases in E. split; [|tauto].
    intros [Hraised _]. exfalso.
    destruct (load_frame files config fp) as [e|df] eqn:Hload.
    + cbn [raised] in Hraised. injection Hraised as Hraised.
      exact (load_frame_raises files config fp e (name config) Hload Hraised).
    + apply emit_rows_raised in Hraised as [a Ha]. discriminate.
Qed.

(** ** The schema variant and the emitted pairs *)

(** C7. For one language scope and one [filepath] argument, emission under
    the [source] configuration and under the [seacrowd_text] configuration
    leave the same pairs and the same outcome. *)
Theorem schema_variant_same_emission
        (files : string -> read_error + Csv) (lang ver1 ver2 : string)
        (config1 config2 : SEACrowdConfig) (fp : filepath) :
  seacrowd_config_constructor lang "source" ver1 = inr config1 ->
  seacrowd_config_constructor lang "seacrowd_text" ver2 = inr config2 ->
  _generate_examples files config1 fp = _generate_examples files config2 fp.
Proof.
  intros H1 H2.
  apply constructor_Ok in H1 as (_ & Hs1 & Hall1).
  apply constructor_Ok in H2 as (_ & Hs2 & Hall2).
  apply generate_examples_ext; [now left | now right | congruence].
Qed.

(** C7, on the Javanese sample file. *)
Lemma schema_variant_same_emission_witness :
  _generate_examples Sample.disk Sample.jav_source (OnePath (Sample.train_path "jav"))
  = _generate_examples Sample.disk Sample.jav_seacrowd_text
                       (OnePath (Sample.train_path "jav")).
Proof.
  apply (schema_variant_same_emission Sample.disk "jav" "1.0.0" "1.0.0");
    reflexivity.
Defined.

(** C10. In every pair example emission yields, the record's [id] is
    [str] of the key. *)
Theorem record_id_is_str_of_key
        (files : string -> read_error + Csv) (config : SEACrowdConfig)
        (fp : filepath) (key : cell) (ex : example) :
  In (key, ex) (yielded (_generate_examples files config fp)) ->
  ex_id ex = str key.
Proof.
  unfold _generate_examples.
  destruct (negb _ && negb _); [contradiction|].
  destruct (load_frame files config fp) as [e|df]; [contradiction|].
  intros Hy.
  apply emit_rows_yielded in Hy as (k & ci & ct & cl & _ & _ & _ & _ & Hy).
  unfold record_of in Hy. now injection Hy as -> ->.
Qed.

(** C10, on the second pair of the Javanese sample run. *)
Lemma record_id_is_str_of_key_witness :
  In (VInt 9, {| ex_id := "9"; ex_text := VStr "b"; ex_label := VStr "sad" |})
     (yielded (_generate_examples Sample.disk Sample.jav_source
                                  (OnePath (Sample.train_path "jav"))))
  /\ ex_id {| ex_id := "9"; ex_text := VStr "b"; ex_label := VStr "sad" |}
     = str (VInt 9).
Proof.
  assert (H : In (VInt 9,
                  {| ex_id := "9"; ex_text := VStr "b"; ex_label := VStr "sad" |})
                 (yielded (_generate_examples Sample.disk Sample.jav_source
                                              (OnePath (Sample.train_path "jav")))))
    by (right; left; reflexivity).
  split; [exact H|].
  exact (record_id_is_str_of_key Sample.disk Sample.jav_source
           (OnePath (Sample.train_path "jav")) _ _ H).
Defined.

(** ** Split resolution and the default configuration *)

(** C8. With a download manager that resolves every URL: under a bare
    [<dataset>_<schema>] name split resolution makes three list requests
    (train, validation, test), each of the 10 language files in table order,
    and hands each split its list of paths; under a name
    [<dataset>_<lang>_<schema>] it makes three single requests, for the train,
    validation and test file of the language named, and hands each split its
    one path. *)
Theorem split_resolution_requests
        (fetch : string -> result string) (local : string -> string)
        (config : SEACrowdConfig) :
  (forall url, fetch url = inr (local url)) ->
  (all_languages (name config) = true ->
   _split_generators fetch config []
   = (inr [ {| split_name := TRAIN;
               gen_kwargs :=
                 PathList (map local (map train_url (keys LANGUAGES_MAP))) |};
            {| split_name := VALIDATION;
               gen_kwargs :=
                 PathList (map local (map validation_url (keys LANGUAGES_MAP))) |};
            {| split_name := TEST;
               gen_kwargs :=
                 PathList (map local (map test_url (keys LANGUAGES_MAP))) |} ],
      [ FetchMany (map train_url (keys LANGUAGES_MAP));
        FetchMany (map validation_url (keys LANGUAGES_MAP));
        FetchMany (map test_url (keys LANGUAGES_MAP)) ])
   /\ List.length (keys LANGUAGES_MAP) = 10)
  /\ (forall lang sch,
        contains "_"%char lang = false ->
        sch = "source" \/ sch = "seacrowd_text" ->
        name config = ("nusaparagraph_emot_" ++ lang ++ "_" ++ sch)%string ->
        all_languages (name config) = false
        /\ _split_generators fetch config []
           = (inr [ {| split_name := TRAIN;
                       gen_kwargs := OnePath (local (train_url lang)) |};
                    {| split_name := VALIDATION;
                       gen_kwargs := OnePath (local (validation_url lang)) |};
                    {| split_name := TEST;
                       gen_kwargs := OnePath (local (test_url lang)) |} ],
              [ FetchOne (train_url lang); FetchOne (validation_url lang);
                FetchOne (test_url lang) ])).
Proof.
  intros Hfetch. split.
  - intros Hall. split; [|reflexivity].
    exact (split_generators_all fetch local Hfetch config [] Hall).
  - intros lang sch Hlang Hsch Hname.
    assert (Hall : all_languages (name config) = false)
      by (rewrite Hname; now apply all_languages_lang).
    split; [exact Hall|].
    apply (split_generators_one fetch local Hfetch config lang [] Hall).
    rewrite Hname. now apply name_language.
Qed.

(** C8, on the Javanese [source] configuration and the all-languages one. *)
Lemma split_resolution_requests_witness :
  snd (_split_generators Sample.fetch Sample.jav_source [])
  = [ FetchOne (train_url "jav"); FetchOne (validation_url "jav");
      FetchOne (test_url "jav") ]
  /\ snd (_split_generators Sample.fetch Sample.all_source [])
     = [ FetchMany (map train_url (keys LANGUAGES_MAP));
         FetchMany (map validation_url (keys LANGUAGES_MAP));
         FetchMany (map test_url (keys LANGUAGES_MAP)) ].
Proof.
  split.
  - rewrite (proj2 (proj2 (split_resolution_requests Sample.fetch Sample.cached
                             Sample.jav_source (fun url => eq_refl))
                          "jav" "source" eq_refl (or_introl eq_refl) eq_refl)).
    reflexivity.
  - rewrite (proj1 (proj1 (split_resolution_requests Sample.fetch Sample.cached
                             Sample.all_source (fun url => eq_refl))
                          eq_refl)).
    reflexivity.
Defined.

(** C9. The default configuration name is the name of none of the 22
    registered configurations: its language field is [ind], which is no key
    of the language table, so selecting the default by name finds nothing. *)
Theorem default_config_not_registered :
  exists registry,
    BUILDER_CONFIGS = inr registry
    /\ List.length registry = 22
    /\ ~ In DEFAULT_CONFIG_NAME (map name registry)
    /\ getitem (split "_"%char DEFAULT_CONFIG_NAME) 2 = inr "ind"
    /\ ~ In "ind" (keys LANGUAGES_MAP)
    /\ builder_config DEFAULT_CONFIG_NAME registry = None.
Proof.
  destruct BUILDER_CONFIGS as [e|registry] eqn:E; [discriminate|].
  exists registry. vm_compute in E. injection E as <-.
  split; [reflexivity|]. split; [reflexivity|].
  split; [apply mem_not_In; reflexivity|].
  split; [reflexivity|].
  split; [apply mem_not_In; reflexivity | reflexivity].
Qed.

(** * Further properties of the loader *)

(** ** Strings *)

Lemma append_inj_prefix (p a b : string) :
  (p ++ a = p ++ b)%string -> a = b.
Proof.
  intros H. apply String.eqb_eq. rewrite <- (append_eqb_prefix p).
  now apply String.eqb_eq.
Qed.

Lemma append_inj_suffix (a b s t : string) :
  String.length s = String.length t ->
  (a ++ s = b ++ t)%string -> a = b /\ s = t.
Proof.
  intros Hlen. revert b.
  induction a as [|c a IH]; intros [|d b] H; simpl in H.
  - now split.
  - exfalso. apply (f_equal String.length) in H. simpl in H.
    rewrite length_append in H. lia.
  - exfalso. apply (f_equal String.length) in H. simpl in H.
    rewrite length_append in H. lia.
  - injection H as -> H. destruct (IH b H) as [-> ->]. now split.
Qed.

Lemma append_assoc (a b c : string) :
  ((a ++ b) ++ c = a ++ (b ++ c))%string.
Proof. induction a as [|x a IH]; simpl; [reflexivity | now rewrite IH]. Qed.

(** ** The constructor and the checks made later *)

Lemma known_schema_raised
      (files : string -> read_error + Csv) (config : SEACrowdConfig)
      (fp : filepath) :
  schema config = "source" \/ schema config = "seacrowd_text" ->
  raised (_generate_examples files config fp)
  <> Some (ValueError ("Invalid config: " ++ name config)%string).
Proof.
  intros Hs. unfold _generate_examples.
  rewrite (proj2 (known_schema_cases _) Hs).
  destruct (load_frame files config fp) as [e|df] eqn:Hload.
  - cbn [raised]. intros H. injection H as H.
    exact (load_frame_raises files config fp e (name config) Hload H).
  - intros H. apply emit_rows_raised in H as [a Ha]. discriminate.
Qed.

(** X1. A configuration the constructor returns passes both later tests of
    its schema: [_info] returns its features, and example emission never
    ends with the invalid-configuration error, whatever the files and the
    [filepath] argument. *)
Theorem constructed_config_passes_checks
        (files : string -> read_error + Csv) (lang sch ver : string)
        (config : SEACrowdConfig) (fp : filepath) :
  seacrowd_config_constructor lang sch ver = inr config ->
  (exists features, _info config = inr features)
  /\ raised (_generate_examples files config fp)
     <> Some (InvalidConfigError (name config)).
Proof.
  intros H. apply constructor_Ok in H as (Hsch & Hs & _). rewrite <- Hs in Hsch.
  split.
  - unfold _info. destruct Hsch as [-> | ->]; eexists; reflexivity.
  - now apply known_schema_raised.
Qed.

Lemma constructed_config_passes_checks_witness :
  (exists features, _info Sample.jav_source = inr features)
  /\ raised (_generate_examples Sample.disk Sample.jav_source
                                (PathList ["/nowhere"]))
     <> Some (InvalidConfigError (name Sample.jav_source)).
Proof.
  exact (constructed_config_passes_checks Sample.disk "jav" "source" "1.0.0"
           Sample.jav_source (PathList ["/nowhere"]) eq_refl).
Defined.

(** X2. [_info] raises [UnboundLocalError] on [features] exactly when the
    schema of the configuration is neither [source] nor [seacrowd_text]:
    neither branch binds the variable the return statement reads. *)
Theorem info_unbound_features (config : SEACrowdConfig) :
  _info config = inl (UnboundLocalError "features")
  <-> (schema config <> "source" /\ schema config <> "seacrowd_text").
Proof.
  unfold _info.
  destruct (String.eqb (schema config) "source") eqn:E1;
    [apply String.eqb_eq in E1 | apply String.eqb_neq in E1];
    (destruct (String.eqb (schema config) "seacrowd_text") eqn:E2;
     [apply String.eqb_eq in E2 | apply String.eqb_neq in E2]);
    split; try discriminate; try tauto; intros [H1 H2]; congruence.
Qed.

(** X3. The name the constructor gives a configuration tells its language
    scope and its schema: two configurations it returns under one name were
    built from the same language code and the same schema, whatever the
    codes are. *)
Theorem constructor_name_injective
        (lang1 sch1 ver1 lang2 sch2 ver2 : string)
        (config1 config2 : SEACrowdConfig) :
  seacrowd_config_constructor lang1 sch1 ver1 = inr config1 ->
  seacrowd_config_constructor lang2 sch2 ver2 = inr config2 ->
  name config1 = name config2 ->
  lang1 = lang2 /\ sch1 = sch2.
Proof.
  intros H1 H2 Hname.
  destruct (constructor_Ok _ _ _ _ H1) as (_ & _ & Hall1).
  destruct (constructor_Ok _ _ _ _ H2) as (_ & _ & Hall2).
  destruct (constructor_inv _ _ _ _ H1) as (Hs1 & _ & _ & _ & Hn1).
  destruct (constructor_inv _ _ _ _ H2) as (Hs2 & _ & _ & _ & Hn2).
  rewrite Hname, Hall2 in Hall1. rewrite Hn1, Hn2 in Hname.
  destruct (String.eqb lang1 "") eqn:E1; destruct (String.eqb lang2 "") eqn:E2;
    try discriminate Hall1;
    apply (append_inj_prefix "nusaparagraph_emot_") in Hname.
  - apply String.eqb_eq in E1, E2. now subst.
  - destruct Hs1 as [-> | ->], Hs2 as [-> | ->].
    + now apply (append_inj_suffix lang1 lang2 "_source" "_source") in Hname.
    + exfalso.
      change (lang2 ++ "_" ++ "seacrowd_text")%string
        with (lang2 ++ ("_seacro" ++ "wd_text"))%string in Hname.
      rewrite <- (append_assoc lang2 "_seacro" "wd_text") in Hname.
      apply (append_inj_suffix lang1 (lang2 ++ "_seacro") "_source" "wd_text")
        in Hname as [_ Hname]; [discriminate | reflexivity].
    + exfalso.
      change (lang1 ++ "_" ++ "seacrowd_text")%string
        with (lang1 ++ ("_seacro" ++ "wd_text"))%string in Hname.
      rewrite <- (append_assoc lang1 "_seacro" "wd_text") in Hname.
      apply (append_inj_suffix (lang1 ++ "_seacro") lang2 "wd_text" "_source")
        in Hname as [_ Hname]; [discriminate | reflexivity].
    + now apply (append_inj_suffix lang1 lang2 "_seacrowd_text" "_seacrowd_text")
        in Hname.
Qed.

Lemma constructor_name_injective_witness :
  name Sample.jav_source = name (Sample.config_of "jav" "source")
  /\ "jav" = "jav" /\ "source" = "source".
Proof.
  split; [reflexivity|].
  exact (constructor_name_injective "jav" "source" "1.0.0" "jav" "source" "1.0.0"
           Sample.jav_source (Sample.config_of "jav" "source")
           eq_refl eq_refl eq_refl).
Defined.

(** ** Example emission: how a run can end *)

Lemma emit_rows_all_or_nothing (df : DataFrame) (ks : list nat) (e : exn) :
  raised (emit_rows df ks) = Some e -> yielded (emit_rows df ks) = [].
Proof.
  destruct (lookup "id" (columns df)) as [ci|] eqn:Hi;
    [destruct (lookup "text" (columns df)) as [ct|] eqn:Ht;
     [destruct (lookup "label" (columns df)) as [cl|] eqn:Hl|]|].
  - rewrite (emit_rows_columns df ci ct cl ks Hi Ht Hl). discriminate.
  - destruct ks as [|k ks]; [discriminate|]. simpl.
    unfold row_example, getattr. now rewrite Hi, Ht, Hl.
  - destruct ks as [|k ks]; [discriminate|]. simpl.
    unfold row_example, getattr. now rewrite Hi, Ht.
  - destruct ks as [|k ks]; [discriminate|]. simpl.
    unfold row_example, getattr. now rewrite Hi.
Qed.

(** X4. A run of example emission that ends with an exception has yielded
    nothing: every failure comes before the first pair, so no partial
    sequence is ever handed on. *)
Theorem emission_all_or_nothing
        (files : string -> read_error + Csv) (config : SEACrowdConfig)
        (fp : filepath) (e : exn) :
  raised (_generate_examples files config fp) = Some e ->
  yielded (_generate_examples files config fp) = [].
Proof.
  unfold _generate_examples.
  destruct (negb _ && negb _); [reflexivity|].
  destruct (load_frame files config fp) as [e'|df]; [reflexivity|].
  apply emit_rows_all_or_nothing.
Qed.

Lemma emission_all_or_nothing_witness :
  raised (_generate_examples Sample.disk Sample.jav_source (OnePath "/nowhere"))
  = Some (ReadError FileNotFoundError)
  /\ yielded (_generate_examples Sample.disk Sample.jav_source (OnePath "/nowhere"))
     = [].
Proof.
  split; [reflexivity|].
  exact (emission_all_or_nothing Sample.disk Sample.jav_source (OnePath "/nowhere")
           (ReadError FileNotFoundError) eq_refl).
Defined.

Lemma mapM_read_csv_first_error
      (files : string -> read_error + Csv) (ps1 : list string) (p : string)
      (ps2 : list string) (r : read_error) :
  (forall q, In q ps1 -> exists c, files q = inr c) ->
  files p = inl r ->
  mapM (read_csv files) (ps1 ++ p :: ps2) = inl (ReadError r).
Proof.
  intros Hps1 Hp. induction ps1 as [|q ps1 IH]; simpl.
  - unfold read_csv at 1. now rewrite Hp.
  - destruct (Hps1 q (or_introl eq_refl)) as [c Hc].
    rewrite (read_csv_frame files q c Hc). cbn [bind].
    rewrite IH; [reflexivity|]. intros q' Hq'. apply Hps1. now right.
Qed.

(** X5. When a file cannot be read, example emission yields nothing and
    ends with the read error of the first such file in the order of the
    paths, unchanged; the files after it are not looked at. *)
Theorem emission_first_read_error
        (files : string -> read_error + Csv) (config : SEACrowdConfig)
        (fp : filepath) (ps1 : list string) (p : string) (ps2 : list string)
        (r : read_error) :
  schema config = "source" \/ schema config = "seacrowd_text" ->
  fits_branch (name config) fp = true ->
  paths_of fp = ps1 ++ p :: ps2 ->
  (forall q, In q ps1 -> exists c, files q = inr c) ->
  files p = inl r ->
  _generate_examples files config fp
  = {| yielded := []; raised := Some (ReadError r) |}.
Proof.
  intros Hs Hfit Hpaths Hps1 Hp. unfold _generate_examples, load_frame.
  rewrite (proj2 (known_schema_cases _) Hs).
  destruct fp as [q|ps]; cbn [fits_branch paths_of] in Hfit, Hpaths.
  - apply negb_true_iff in Hfit. rewrite Hfit.
    destruct ps1 as [|q' ps1]; simpl in Hpaths.
    + injection Hpaths as ->. unfold read_csv. now rewrite Hp.
    + injection Hpaths as _ Hpaths. now destruct ps1.
  - rewrite Hfit, Hpaths.
    now rewrite (mapM_read_csv_first_error files ps1 p ps2 r Hps1 Hp).
Qed.

Lemma emission_first_read_error_witness :
  _generate_examples Sample.disk Sample.all_source
    (PathList [Sample.train_path "btk"; "/nowhere"; Sample.train_path "bew"])
  = {| yielded := []; raised := Some (ReadError FileNotFoundError) |}.
Proof.
  apply (emission_first_read_error Sample.disk Sample.all_source
           (PathList [Sample.train_path "btk"; "/nowhere"; Sample.train_path "bew"])
           [Sample.train_path "btk"] "/nowhere" [Sample.train_path "bew"]
           FileNotFoundError);
    [now left | reflexivity | reflexivity | | reflexivity].
  intros q [<- | []]. now exists Sample.btk_train.
Defined.

(** X6. Under an all-languages configuration an empty list of paths makes
    example emission end with the [ValueError] of [pd.concat], "No objects
    to concatenate", having yielded nothing. *)
Theorem emission_no_files
        (files : string -> read_error + Csv) (config : SEACrowdConfig) :
  schema config = "source" \/ schema config = "seacrowd_text" ->
  all_languages (name config) = true ->
  _generate_examples files config (PathList [])
  = {| yielded := []; raised := Some (ValueError "No objects to concatenate") |}.
Proof.
  intros Hs Hall. unfold _generate_examples, load_frame.
  now rewrite (proj2 (known_schema_cases _) Hs), Hall.
Qed.

Lemma emission_no_files_witness :
  _generate_examples Sample.disk Sample.all_source (PathList [])
  = {| yielded := []; raised := Some (ValueError "No objects to concatenate") |}.
Proof.
  apply (emission_no_files Sample.disk Sample.all_source);
    [now left | reflexivity].
Defined.

(** ** Example emission: keys that never collide *)

Lemma str_VInt_inj (a b : Z) : str (VInt a) = str (VInt b) -> a = b.
Proof.
  assert (Hisi : forall z,
             NilZero.int_of_string (NilZero.string_of_int (Z.to_int z))
             = Some (Z.to_int z)).
  { intros z. apply NilZero.isi; destruct z; simpl; try discriminate;
      intros E; injection E as E;
      exact (DecimalPos.Unsigned.to_uint_nonnil _ E). }
  unfold str. intros H. apply DecimalZ.to_int_inj.
  pose proof (Hisi a) as Ha. rewrite H, Hisi in Ha. now injection Ha.
Qed.

Lemma stacked_keys (rows : list (cell * cell)) (a : nat) :
  map fst
      (map (fun p : nat * (cell * cell) =>
              record_of (VInt (Z.of_nat (fst p))) (fst (snd p)) (snd (snd p)))
           (combine (seq a (List.length rows)) rows))
  = map (fun k => VInt (Z.of_nat k)) (seq a (List.length rows)).
Proof.
  revert a. induction rows as [|x rows IH]; intros a; simpl; [reflexivity|].
  now rewrite IH.
Qed.

Lemma stacked_ids (rows : list (cell * cell)) (a : nat) :
  map (fun y : cell * example => ex_id (snd y))
      (map (fun p : nat * (cell * cell) =>
              record_of (VInt (Z.of_nat (fst p))) (fst (snd p)) (snd (snd p)))
           (combine (seq a (List.length rows)) rows))
  = map (fun k => str (VInt (Z.of_nat k))) (seq a (List.length rows)).
Proof.
  revert a. induction rows as [|x rows IH]; intros a; simpl; [reflexivity|].
  now rewrite IH.
Qed.

Lemma NoDup_map_seq {A : Type} (f : nat -> A) (a n : nat) :
  (forall i j, f i = f j -> i = j) -> NoDup (map f (seq a n)).
Proof.
  intros Hinj. revert a. induction n as [|n IH]; intros a; simpl; constructor.
  - intros Hin. apply in_map_iff in Hin as [j [Hj Hin]].
    apply Hinj in Hj. subst j. apply in_seq in Hin. lia.
  - apply IH.
Qed.

(** X7. Under an all-languages configuration, over files with the columns
    [id], [text] and [label] (and none named [index]), no two emitted pairs
    share a key and no two emitted records share an [id], however the ids
    inside the files repeat from one file to the next. *)
Theorem all_languages_keys_distinct
        (files : string -> read_error + Csv) (config : SEACrowdConfig)
        (ps : list string) (cs : list Csv) :
  schema config = "source" \/ schema config = "seacrowd_text" ->
  all_languages (name config) = true ->
  ps <> [] ->
  Forall2 (fun p c => files p = inr c /\ emot_header c = true) ps cs ->
  NoDup (map fst (yielded (_generate_examples files config (PathList ps))))
  /\ NoDup (map (fun y => ex_id (snd y))
                (yielded (_generate_examples files config (PathList ps)))).
Proof.
  intros Hs Hall Hps Hfiles.
  rewrite (generate_all files config ps cs Hs Hall Hps Hfiles). cbn [yielded].
  split.
  - rewrite stacked_keys. apply NoDup_map_seq.
    intros i j H. injection H as H. lia.
  - rewrite stacked_ids. apply NoDup_map_seq.
    intros i j H. apply str_VInt_inj in H. lia.
Qed.

Lemma all_languages_keys_distinct_witness :
  csv_column Sample.btk_train "id" = [VInt 0; VInt 1]
  /\ csv_column Sample.bew_train "id" = [VInt 0; VInt 1; VInt 2]
  /\ NoDup (map fst (yielded (_generate_examples Sample.disk Sample.all_source
                       (PathList [Sample.train_path "btk";
                                  Sample.train_path "bew"])))).
Proof.
  split; [reflexivity|]. split; [reflexivity|].
  apply (all_languages_keys_distinct Sample.disk Sample.all_source
           [Sample.train_path "btk"; Sample.train_path "bew"]
           [Sample.btk_train; Sample.bew_train]);
    [now left | reflexivity | discriminate | repeat constructor].
Defined.

(** ** Example emission over one file: the columns that matter *)

(** X8. Under a single-language configuration, over a file with the
    columns [id], [text] and [label], each read as it stands
    ([plain_column]): when the file has both a column [index] and a column
    [level_0], [reset_index] cannot name its new column and emission ends
    with its [ValueError], having yielded nothing; in every other case, also
    when the file has a column [index] of its own, emission yields every row
    of the file, in order, under the file's own [id]. *)
Theorem single_language_index_columns
        (files : string -> read_error + Csv) (config : SEACrowdConfig)
        (p : string) (c : Csv) :
  schema config = "source" \/ schema config = "seacrowd_text" ->
  all_languages (name config) = false ->
  files p = inr c ->
  mem "id" (header c) = true ->
  mem "text" (header c) = true ->
  mem "label" (header c) = true ->
  plain_column (csv_column c "id") = true ->
  plain_column (csv_column c "text") = true ->
  plain_column (csv_column c "label") = true ->
  _generate_examples files config (OnePath p)
  = if mem "index" (header c) && mem "level_0" (header c)
    then {| yielded := [];
            raised := Some (ValueError "cannot insert level_0, already exists") |}
    else {| yielded :=
              map (fun r => record_of (csv_cell c "id" r) (csv_cell c "text" r)
                                      (csv_cell c "label" r)) (body c);
            raised := None |}.
Proof.
  intros Hs Hall Hp Hid Htext Hlabel _ _ _.
  now apply generate_single_columns.
Qed.

Lemma single_language_index_columns_witness :
  _generate_examples
    (fun _ => inr {| header := ["index"; "level_0"; "id"; "text"; "label"];
                     body := [ [VInt 0; VInt 0; VInt 5; VStr "a"; VStr "happy"] ] |})
    Sample.jav_source (OnePath "/anywhere")
  = {| yielded := [];
       raised := Some (ValueError "cannot insert level_0, already exists") |}
  /\ _generate_examples (fun _ => inr Sample.indexed_train)
                        Sample.jav_source (OnePath "/anywhere")
     = {| yielded :=
            [ (VInt 0, {| ex_id := "0"; ex_text := VStr "a";
                          ex_label := VStr "happy" |});
              (VInt 1, {| ex_id := "1"; ex_text := VStr "b";
                          ex_label := VStr "sad" |}) ];
          raised := None |}.
Proof.
  split.
  - apply (single_language_index_columns
             (fun _ => inr {| header := ["index"; "level_0"; "id"; "text"; "label"];
                              body := [ [VInt 0; VInt 0; VInt 5; VStr "a";
                                         VStr "happy"] ] |})
             Sample.jav_source "/anywhere" _ (or_introl eq_refl) eq_refl eq_refl
             eq_refl eq_refl eq_refl eq_refl eq_refl eq_refl).
  - apply (single_language_index_columns (fun _ => inr Sample.indexed_train)
             Sample.jav_source "/anywhere" _ (or_introl eq_refl) eq_refl eq_refl
             eq_refl eq_refl eq_refl eq_refl eq_refl eq_refl).
Defined.

(** X9. Under a single-language configuration, over a file without a
    column [id]: when the file has both a column [index] and a column
    [level_0], emission ends with the [ValueError] of [reset_index];
    otherwise the first row makes it end with [AttributeError] on [id], and
    a file with no row at all passes unnoticed, emission ending normally. In
    every case nothing is yielded. *)
Theorem single_language_no_id_column
        (files : string -> read_error + Csv) (config : SEACrowdConfig)
        (p : string) (c : Csv) :
  schema config = "source" \/ schema config = "seacrowd_text" ->
  all_languages (name config) = false ->
  files p = inr c ->
  mem "id" (header c) = false ->
  _generate_examples files config (OnePath p)
  = {| yielded := [];
       raised :=
         if mem "index" (header c) && mem "level_0" (header c)
         then Some (ValueError "cannot insert level_0, already exists")
         else match body c with
              | [] => None
              | _ :: _ => Some (AttributeError "id")
              end |}.
Proof.
  intros Hs Hall Hp Hid.
  unfold _generate_examples, load_frame.
  rewrite (proj2 (known_schema_cases _) Hs), Hall.
  rewrite (read_csv_frame files p c Hp). cbn [bind].
  rewrite reset_index_frame_of.
  destruct (mem "index" (header c) && mem "level_0" (header c)); [reflexivity|].
  rewrite nrows_mk, length_RangeIndex.
  destruct (body c) as [|r rows]; [reflexivity|].
  cbn [List.length seq emit_rows]. unfold row_example, getattr. cbn [columns].
  now rewrite lookup_after_reset, Hid by reflexivity.
Qed.

Lemma single_language_no_id_column_witness :
  _generate_examples
    (fun _ => inr {| header := ["text"; "label"]; body := [] |})
    Sample.jav_source (OnePath "/anywhere")
  = {| yielded := []; raised := None |}
  /\ _generate_examples
       (fun _ => inr {| header := ["text"; "label"];
                        body := [ [VStr "a"; VStr "happy"] ] |})
       Sample.jav_source (OnePath "/anywhere")
     = {| yielded := []; raised := Some (AttributeError "id") |}
  /\ _generate_examples
       (fun _ => inr {| header := ["index"; "level_0"; "text"; "label"];
                        body := [] |})
       Sample.jav_source (OnePath "/anywhere")
     = {| yielded := [];
          raised := Some (ValueError "cannot insert level_0, already exists") |}.
Proof.
  split; [|split].
  - exact (single_language_no_id_column
             (fun _ => inr {| header := ["text"; "label"]; body := [] |})
             Sample.jav_source "/anywhere" _ (or_introl eq_refl) eq_refl eq_refl
             eq_refl).
  - exact (single_language_no_id_column
             (fun _ => inr {| header := ["text"; "label"];
                              body := [ [VStr "a"; VStr "happy"] ] |})
             Sample.jav_source "/anywhere" _ (or_introl eq_refl) eq_refl eq_refl
             eq_refl).
  - exact (single_language_no_id_column
             (fun _ => inr {| header := ["index"; "level_0"; "text"; "label"];
                              body := [] |})
             Sample.jav_source "/anywhere" _ (or_introl eq_refl) eq_refl eq_refl
             eq_refl).
Defined.

(** ** Example emission over several files: the columns that matter *)

(** X10. Under an all-languages configuration, over a non-empty list of
    readable files none of which has a column [id] (nor one named [index]),
    emission ends with the [KeyError] of [drop], "['id'] not found in
    axis", having yielded nothing, whether the files have rows or not. *)
Theorem all_languages_no_id_column
        (files : string -> read_error + Csv) (config : SEACrowdConfig)
        (ps : list string) (cs : list Csv) :
  schema config = "source" \/ schema config = "seacrowd_text" ->
  all_languages (name config) = true ->
  ps <> [] ->
  Forall2 (fun p c => files p = inr c /\ mem "id" (header c) = false
                      /\ mem "index" (header c) = false) ps cs ->
  _generate_examples files config (PathList ps)
  = {| yielded := []; raised := Some (KeyError "['id'] not found in axis") |}.
Proof.
  intros Hs Hall Hps Hfiles.
  assert (Hread : Forall2 (fun p c => files p = inr c) ps cs)
    by (eapply Forall2_impl; [|exact Hfiles]; now intros p c [H _]).
  assert (Hid : Forall (fun c => mem "id" (header c) = false) cs).
  { clear -Hfiles. induction Hfiles as [|p c ps cs (_ & H & _) _ IH];
      constructor; auto. }
  assert (Hidx : Forall (fun c => mem "index" (header c) = false) cs).
  { clear -Hfiles. induction Hfiles as [|p c ps cs (_ & _ & H) _ IH];
      constructor; auto. }
  unfold _generate_examples, load_frame.
  rewrite (proj2 (known_schema_cases _) Hs), Hall, (read_frames files ps cs Hread).
  cbn [bind negb andb].
  destruct cs as [|c0 cs']; [inversion Hfiles; congruence|].
  set (cs := c0 :: cs') in *.
  change (concat (map frame_of cs))
    with (Ok {| index := RangeIndex (list_sum (map nrows (map frame_of cs)));
                columns :=
                  map (fun n => (n, flat_map (column_or_nan n) (map frame_of cs)))
                      (union_labels (map frame_of cs)) |}).
  cbn [bind Ok].
  rewrite reset_index_fresh by (rewrite labels_concat; now apply union_lacks).
  cbn [bind]. unfold drop, labels. cbn [columns map fst forallb filter].
  rewrite map_map. cbn [fst]. rewrite map_id.
  replace (mem "id" ("index" :: union_labels (map frame_of cs))) with false
    by (symmetry; now apply (union_lacks "id")).
  reflexivity.
Qed.

Lemma all_languages_no_id_column_witness :
  _generate_examples
    (fun _ => inr {| header := ["text"; "label"];
                     body := [ [VStr "a"; VStr "happy"] ] |})
    Sample.all_source (PathList ["/anywhere"])
  = {| yielded := []; raised := Some (KeyError "['id'] not found in axis") |}.
Proof.
  apply (all_languages_no_id_column
           (fun _ => inr {| header := ["text"; "label"];
                            body := [ [VStr "a"; VStr "happy"] ] |})
           Sample.all_source ["/anywhere"]
           [ {| header := ["text"; "label"];
                body := [ [VStr "a"; VStr "happy"] ] |} ]);
    [now left | reflexivity | discriminate | repeat constructor].
Defined.

Lemma emitted_stacked (rows : list (cell * cell)) (a : nat) :
  map (fun y : cell * example => (ex_text (snd y), ex_label (snd y)))
      (map (fun p : nat * (cell * cell) =>
              record_of (VInt (Z.of_nat (fst p))) (fst (snd p)) (snd (snd p)))
           (combine (seq a (List.length rows)) rows))
  = rows.
Proof.
  revert a. induction rows as [|[t l] rows IH]; intros a; simpl; [reflexivity|].
  now rewrite IH.
Qed.

(** X11. Under an all-languages configuration the emitted texts and labels
    follow the list of files: over two lists of well-formed files put end to
    end, whose texts and labels stack as they stand ([plain_column]),
    emission yields the rows it yields over the first list, then the rows it
    yields over the second. *)
Theorem all_languages_rows_append
        (files : string -> read_error + Csv) (config : SEACrowdConfig)
        (ps1 ps2 : list string) (cs1 cs2 : list Csv) :
  schema config = "source" \/ schema config = "seacrowd_text" ->
  all_languages (name config) = true ->
  ps1 <> [] -> ps2 <> [] ->
  Forall2 (fun p c => files p = inr c /\ emot_header c = true) ps1 cs1 ->
  Forall2 (fun p c => files p = inr c /\ emot_header c = true) ps2 cs2 ->
  plain_column (map fst (stacked_rows (cs1 ++ cs2))) = true ->
  plain_column (map snd (stacked_rows (cs1 ++ cs2))) = true ->
  emitted_rows (_generate_examples files config (PathList (ps1 ++ ps2)))
  = emitted_rows (_generate_examples files config (PathList ps1))
    ++ emitted_rows (_generate_examples files config (PathList ps2)).
Proof.
  intros Hs Hall H1 H2 Hf1 Hf2 _ _.
  rewrite (generate_all files config ps1 cs1 Hs Hall H1 Hf1).
  rewrite (generate_all files config ps2 cs2 Hs Hall H2 Hf2).
  rewrite (generate_all files config (ps1 ++ ps2) (cs1 ++ cs2) Hs Hall);
    [ | destruct ps1; [congruence | discriminate] | now apply Forall2_app ].
  unfold emitted_rows. cbn [yielded]. rewrite !emitted_stacked.
  unfold stacked_rows. apply flat_map_app.
Qed.

Lemma all_languages_rows_append_witness :
  emitted_rows (_generate_examples Sample.disk Sample.all_source
                  (PathList ([Sample.train_path "btk"] ++ [Sample.train_path "bew"])))
  = [ (VStr "p", VStr "fear"); (VStr "q", VStr "angry") ]
    ++ [ (VStr "r", VStr "shame"); (VStr "s", VStr "sad"); (VStr "t", VStr "happy") ].
Proof.
  rewrite (all_languages_rows_append Sample.disk Sample.all_source
             [Sample.train_path "btk"] [Sample.train_path "bew"]
             [Sample.btk_train] [Sample.bew_train]
             (or_introl eq_refl) eq_refl
             ltac:(discriminate) ltac:(discriminate)
             ltac:(repeat constructor) ltac:(repeat constructor)
             eq_refl eq_refl).
  reflexivity.
Defined.

Lemma lookup_id_after_rename (cols : list (string * list cell)) :
  lookup "id"
    (map (fun c => (renamed [("index", "id")] (fst c), snd c))
         (filter (fun c => negb (mem (fst c) ["id"])) cols))
  = lookup "index" cols.
Proof.
  induction cols as [|[n col] cols IH]; [reflexivity|].
  cbn [filter fst]. unfold mem at 1. cbn [existsb]. rewrite orb_false_r.
  destruct (String.eqb n "id") eqn:Eid; cbn [negb].
  - apply String.eqb_eq in Eid. subst n. exact IH.
  - cbn [map fst snd lookup].
    change (renamed [("index", "id")] n)
      with (if String.eqb n "index" then "id" else n).
    destruct (String.eqb n "index") eqn:Eidx.
    + apply String.eqb_eq in Eidx. now subst n.
    + rewrite String.eqb_sym, Eid.
      replace (String.eqb "index" n) with false
        by (now rewrite String.eqb_sym, Eidx).
      exact IH.
Qed.

Lemma map_over_flat_map {A B C : Type} (f : B -> C) (g : A -> list B)
      (l : list A) :
  map f (flat_map g l) = flat_map (fun a => map f (g a)) l.
Proof.
  induction l as [|a l IH]; simpl; [reflexivity|]. now rewrite map_app, IH.
Qed.

Lemma rows_of_columns (gi gt gl : Csv -> list cell -> cell) (cs : list Csv) :
  map (fun k =>
         record_of (nth k (flat_map (fun c => map (gi c) (body c)) cs) VNaN)
                   (nth k (flat_map (fun c => map (gt c) (body c)) cs) VNaN)
                   (nth k (flat_map (fun c => map (gl c) (body c)) cs) VNaN))
      (seq 0 (list_sum (map (fun c => List.length (body c)) cs)))
  = flat_map (fun c => map (fun r => record_of (gi c r) (gt c r) (gl c r))
                           (body c)) cs.
Proof.
  pose (triples := fun c : Csv => map (fun r => (gi c r, gt c r, gl c r)) (body c)).
  assert (Hi : flat_map (fun c => map (gi c) (body c)) cs
               = map (fun t => fst (fst t)) (flat_map triples cs)).
  { rewrite map_over_flat_map. apply flat_map_ext. intros c.
    unfold triples. now rewrite map_map. }
  assert (Ht : flat_map (fun c => map (gt c) (body c)) cs
               = map (fun t => snd (fst t)) (flat_map triples cs)).
  { rewrite map_over_flat_map. apply flat_map_ext. intros c.
    unfold triples. now rewrite map_map. }
  assert (Hl : flat_map (fun c => map (gl c) (body c)) cs
               = map (fun t => snd t) (flat_map triples cs)).
  { rewrite map_over_flat_map. apply flat_map_ext. intros c.
    unfold triples. now rewrite map_map. }
  assert (Hlen : list_sum (map (fun c => List.length (body c)) cs)
                 = List.length (flat_map triples cs)).
  { rewrite length_flat_map_sum. f_equal.
    apply map_ext. intros c. unfold triples. now rewrite length_map. }
  assert (Hrows : flat_map (fun c => map (fun r => record_of (gi c r) (gt c r)
                                                             (gl c r)) (body c)) cs
                  = map (fun t => record_of (fst (fst t)) (snd (fst t)) (snd t))
                        (flat_map triples cs)).
  { rewrite map_over_flat_map. apply flat_map_ext. intros c.
    unfold triples. now rewrite map_map. }
  rewrite Hi, Ht, Hl, Hlen, Hrows.
  rewrite <- (map_nth_seq
                (fun t : cell * cell * cell =>
                   record_of (fst (fst t)) (snd (fst t)) (snd t))
                (VNaN, VNaN, VNaN) (flat_map triples cs)).
  apply map_ext. intros k.
  now rewrite (map_nth (fun t : cell * cell * cell => fst (fst t)) _
                       (VNaN, VNaN, VNaN)),
              (map_nth (fun t : cell * cell * cell => snd (fst t)) _
                       (VNaN, VNaN, VNaN)),
              (map_nth (fun t : cell * cell * cell => snd t) _
                       (VNaN, VNaN, VNaN)).
Qed.

(** X12. Under an all-languages configuration, when every file has, besides
    [id], [text] and [label], a column of its own named [index] (and none
    named [level_0]), and the [index], [text] and [label] columns stack as
    they stand ([plain_column]), the fresh numbering goes to a column
    [level_0] that is never read, and the rename turns the files' [index]
    column into [id]: the rows are emitted in order under the values of the
    files' [index] column, not under their positions. *)
Theorem all_languages_index_column
        (files : string -> read_error + Csv) (config : SEACrowdConfig)
        (ps : list string) (cs : list Csv) :
  schema config = "source" \/ schema config = "seacrowd_text" ->
  all_languages (name config) = true ->
  ps <> [] ->
  Forall2 (fun p c => files p = inr c
                      /\ (mem "id" (header c) = true
                          /\ mem "text" (header c) = true
                          /\ mem "label" (header c) = true)
                      /\ mem "index" (header c) = true
                      /\ mem "level_0" (header c) = false) ps cs ->
  plain_column (flat_map (fun c => csv_column c "index") cs) = true ->
  plain_column (flat_map (fun c => csv_column c "text") cs) = true ->
  plain_column (flat_map (fun c => csv_column c "label") cs) = true ->
  _generate_examples files config (PathList ps)
  = {| yielded :=
         flat_map (fun c =>
                     map (fun r => record_of (csv_cell c "index" r)
                                             (csv_cell c "text" r)
                                             (csv_cell c "label" r)) (body c)) cs;
       raised := None |}.
Proof.
  intros Hs Hall Hps Hfiles _ _ _.
  assert (Hread : Forall2 (fun p c => files p = inr c) ps cs)
    by (eapply Forall2_impl; [|exact Hfiles]; now intros p c [H _]).
  assert (Hcol : forall name,
             name = "id" \/ name = "text" \/ name = "label" \/ name = "index" ->
             Forall (fun c => mem name (header c) = true) cs).
  { intros name Hn. clear -Hfiles Hn.
    induction Hfiles as [|p c ps cs (_ & (H1 & H2 & H3) & H4 & _) _ IH];
      constructor; auto.
    destruct Hn as [-> | [-> | [-> | ->]]]; assumption. }
  assert (Hlvl : Forall (fun c => mem "level_0" (header c) = false) cs).
  { clear -Hfiles. induction Hfiles as [|p c ps cs (_ & _ & _ & H) _ IH];
      constructor; auto. }
  assert (Hcs : cs <> []) by (destruct Hfiles; congruence).
  unfold _generate_examples, load_frame.
  rewrite (proj2 (known_schema_cases _) Hs), Hall, (read_frames files ps cs Hread).
  cbn [bind negb andb].
  destruct cs as [|c0 cs']; [congruence|].
  set (cs := c0 :: cs') in *.
  change (concat (map frame_of cs))
    with (Ok {| index := RangeIndex (list_sum (map nrows (map frame_of cs)));
                columns :=
                  map (fun n => (n, flat_map (column_or_nan n) (map frame_of cs)))
                      (union_labels (map frame_of cs)) |}).
  cbn [bind Ok]. unfold reset_index. cbv zeta. rewrite labels_concat.
  rewrite (union_has "index" cs Hcs) by auto.
  rewrite (union_lacks "level_0" cs Hlvl).
  cbn [bind Ok]. rewrite nrows_mk, length_RangeIndex. cbn [index].
  rewrite drop_id_Ok.
  2:{ unfold labels. cbn [columns map fst]. rewrite map_map. cbn [fst].
      rewrite map_id. exact (union_has "id" cs Hcs (Hcol "id" (or_introl eq_refl))). }
  cbn [bind Ok]. unfold rename. cbn [index columns filter fst].
  change (negb (mem "level_0" ["id"])) with true. cbv iota. cbn [map fst snd].
  change (renamed [("index", "id")] "level_0") with "level_0".
  rewrite (emit_rows_columns _
             (flat_map (column_or_nan "index") (map frame_of cs))
             (flat_map (column_or_nan "text") (map frame_of cs))
             (flat_map (column_or_nan "label") (map frame_of cs))).
  - f_equal. rewrite nrows_mk, length_RangeIndex, !stacked_column by auto 6.
    rewrite map_map.
    replace (map (fun x => nrows (frame_of x)) cs)
      with (map (fun c => List.length (body c)) cs)
      by (apply map_ext; intros c; now rewrite nrows_frame_of).
    apply (rows_of_columns (fun c => csv_cell c "index")
                           (fun c => csv_cell c "text")
                           (fun c => csv_cell c "label")).
  - cbn [columns lookup]. change (String.eqb "id" "level_0") with false. cbv iota.
    rewrite lookup_id_after_rename, lookup_named.
    now rewrite (union_has "index" cs Hcs) by auto 6.
  - cbn [columns lookup]. change (String.eqb "text" "level_0") with false.
    cbv iota.
    rewrite lookup_rename_index, lookup_drop_id, lookup_named by reflexivity.
    now rewrite (union_has "text" cs Hcs) by auto 6.
  - cbn [columns lookup]. change (String.eqb "label" "level_0") with false.
    cbv iota.
    rewrite lookup_rename_index, lookup_drop_id, lookup_named by reflexivity.
    now rewrite (union_has "label" cs Hcs) by auto 6.
Qed.

Lemma all_languages_index_column_witness :
  map fst
      (yielded
         (_generate_examples
            (fun _ => inr {| header := ["index"; "id"; "text"; "label"];
                             body := [ [VInt 7; VInt 0; VStr "a"; VStr "happy"];
                                       [VInt 7; VInt 1; VStr "b"; VStr "sad"] ] |})
            Sample.all_source (PathList ["/anywhere"])))
  = [VInt 7; VInt 7].
Proof.
  rewrite (all_languages_index_column
             (fun _ => inr {| header := ["index"; "id"; "text"; "label"];
                              body := [ [VInt 7; VInt 0; VStr "a"; VStr "happy"];
                                        [VInt 7; VInt 1; VStr "b"; VStr "sad"] ] |})
             Sample.all_source ["/anywhere"]
             [ {| header := ["index"; "id"; "text"; "label"];
                  body := [ [VInt 7; VInt 0; VStr "a"; VStr "happy"];
                            [VInt 7; VInt 1; VStr "b"; VStr "sad"] ] |} ]
             (or_introl eq_refl) eq_refl ltac:(discriminate)
             ltac:(repeat constructor) eq_refl eq_refl eq_refl).
  reflexivity.
Defined.

(** ** Split resolution: names, failures and the language fetched *)

Lemma split_nonempty (sep : ascii) (s : string) : split sep s <> [].
Proof.
  destruct s as [|c s]; simpl; [discriminate|].
  destruct (Ascii.eqb c sep); [discriminate|].
  destruct (split sep s); discriminate.
Qed.

Lemma split_append (sep : ascii) (a b : string) :
  split sep (a ++ String sep b) = split sep a ++ split sep b.
Proof.
  induction a as [|c a IH]; simpl.
  - now rewrite Ascii.eqb_refl.
  - destruct (Ascii.eqb c sep); rewrite IH; [reflexivity|].
    destruct (split sep a) as [|h t] eqn:E; [|reflexivity].
    now destruct (split_nonempty sep a).
Qed.

Lemma split_fields_no_sep (sep : ascii) (s : string) :
  Forall (fun f => contains sep f = false) (split sep s).
Proof.
  induction s as [|c s IH]; simpl; [now repeat constructor|].
  destruct (Ascii.eqb c sep) eqn:E; [now constructor|].
  destruct (split sep s) as [|h t]; [constructor; simpl; [now rewrite E | constructor]|].
  inversion IH as [|x l Hh Ht]; subst. constructor; [|assumption].
  simpl. now rewrite E, Hh.
Qed.

Lemma name_first_field (lang sch : string) :
  getitem (split "_"%char ("nusaparagraph_emot_" ++ lang ++ "_" ++ sch)) 2
  = inr (first_field lang).
Proof.
  change ("nusaparagraph_emot_" ++ lang ++ "_" ++ sch)%string
    with ("nusaparagraph" ++ String "_"%char
            ("emot" ++ String "_"%char (lang ++ String "_"%char sch)))%string.
  rewrite !split_field by reflexivity. rewrite split_append.
  unfold first_field, getitem. cbn [nth_error].
  destruct (split "_"%char lang) as [|h t] eqn:E; [|reflexivity].
  now destruct (split_nonempty "_"%char lang).
Qed.

Lemma split_generators_ext
      (fetch : string -> result string) (config1 config2 : SEACrowdConfig)
      (log : list request) :
  all_languages (name config1) = all_languages (name config2) ->
  (all_languages (name config2) = false ->
   getitem (split "_"%char (name config1)) 2
   = getitem (split "_"%char (name config2)) 2) ->
  _split_generators fetch config1 log = _split_generators fetch config2 log.
Proof.
  intros Hall Hlang. unfold _split_generators, dl_bind, dl_ret.
  rewrite Hall. destruct (all_languages (name config2)); [reflexivity|].
  now rewrite Hlang.
Qed.

(** X13. Under a name that is not a bare [<dataset>_<schema>] name and has
    fewer than three [_]-separated fields, split resolution raises
    [IndexError] before it asks the download manager for anything. *)
Theorem split_resolution_short_name
        (fetch : string -> result string) (config : SEACrowdConfig)
        (log : list request) :
  all_languages (name config) = false ->
  List.length (split "_"%char (name config)) <= 2 ->
  _split_generators fetch config log
  = (inl (IndexError "list index out of range"), log).
Proof.
  intros Hall Hlen. unfold _split_generators, dl_bind, dl_ret, getitem.
  rewrite Hall. now rewrite (proj2 (nth_error_None _ 2) Hlen).
Qed.

Lemma split_resolution_short_name_witness :
  _split_generators Sample.fetch
    {| name := "nusaparagraph_emot"; version := {| version_str := "1.0.0" |};
       description := ""; schema := "source"; subset_id := "nusaparagraph_emot" |}
    []
  = (inl (IndexError "list index out of range"), []).
Proof.
  apply (split_resolution_short_name Sample.fetch
           {| name := "nusaparagraph_emot"; version := {| version_str := "1.0.0" |};
              description := ""; schema := "source";
              subset_id := "nusaparagraph_emot" |} []);
    [reflexivity | simpl; lia].
Defined.

(** X14. Under a single-language name, split resolution stops at the first
    download that fails: the exception of the download manager comes out
    unchanged, and the files of the splits after it are never asked for. *)
Theorem split_resolution_stops_at_failure
        (fetch : string -> result string) (config : SEACrowdConfig)
        (lang : string) (log : list request) (e : exn) :
  all_languages (name config) = false ->
  getitem (split "_"%char (name config)) 2 = inr lang ->
  (fetch (train_url lang) = inl e ->
   _split_generators fetch config log
   = (inl e, log ++ [FetchOne (train_url lang)]))
  /\ (forall p, fetch (train_url lang) = inr p ->
                fetch (validation_url lang) = inl e ->
                _split_generators fetch config log
                = (inl e, log ++ [ FetchOne (train_url lang);
                                   FetchOne (validation_url lang) ]))
  /\ (forall p q, fetch (train_url lang) = inr p ->
                  fetch (validation_url lang) = inr q ->
                  fetch (test_url lang) = inl e ->
                  _split_generators fetch config log
                  = (inl e, log ++ [ FetchOne (train_url lang);
                                     FetchOne (validation_url lang);
                                     FetchOne (test_url lang) ])).
Proof.
  intros Hall Hlang.
  assert (Hrun : _split_generators fetch config log
                 = match fetch (train_url lang) with
                   | inl e' => (inl e', log ++ [FetchOne (train_url lang)])
                   | inr p =>
                       match fetch (validation_url lang) with
                       | inl e' => (inl e', (log ++ [FetchOne (train_url lang)])
                                            ++ [FetchOne (validation_url lang)])
                       | inr q =>
                           match fetch (test_url lang) with
                           | inl e' =>
                               (inl e', ((log ++ [FetchOne (train_url lang)])
                                         ++ [FetchOne (validation_url lang)])
                                        ++ [FetchOne (test_url lang)])
                           | inr t =>
                               (inr [ {| split_name := TRAIN;
                                         gen_kwargs := OnePath p |};
                                      {| split_name := VALIDATION;
                                         gen_kwargs := OnePath q |};
                                      {| split_name := TEST;
                                         gen_kwargs := OnePath t |} ],
                                ((log ++ [FetchOne (train_url lang)])
                                 ++ [FetchOne (validation_url lang)])
                                ++ [FetchOne (test_url lang)])
                           end
                       end
                   end).
  { unfold _split_generators. rewrite Hall.
    unfold dl_bind, dl_ret, download_and_extract. rewrite Hlang.
    change (split_url "train" lang) with (@inr exn string (train_url lang)).
    change (split_url "validation" lang)
      with (@inr exn string (validation_url lang)).
    change (split_url "test" lang) with (@inr exn string (test_url lang)).
    cbv beta iota.
    destruct (fetch (train_url lang)); [reflexivity|].
    destruct (fetch (validation_url lang)); [reflexivity|].
    now destruct (fetch (test_url lang)). }
  rewrite Hrun. repeat split.
  - now intros ->.
  - intros p -> ->. now rewrite <- app_assoc.
  - intros p q -> -> ->. now rewrite <- !app_assoc.
Qed.

Lemma split_resolution_stops_at_failure_witness :
  _split_generators
    (fun url => if String.eqb url (validation_url "jav")
                then inl (DownloadError url) else inr (Sample.cached url))
    Sample.jav_source []
  = (inl (DownloadError (validation_url "jav")),
     [ FetchOne (train_url "jav"); FetchOne (validation_url "jav") ]).
Proof.
  apply (proj1 (proj2
           (split_resolution_stops_at_failure
              (fun url => if String.eqb url (validation_url "jav")
                          then inl (DownloadError url)
                          else inr (Sample.cached url))
              Sample.jav_source "jav" [] (DownloadError (validation_url "jav"))
              eq_refl eq_refl))
           (Sample.cached (train_url "jav")));
    reflexivity.
Defined.

(** X15. Under a single-language name [<dataset>_<lang>_<schema>] the files
    fetched are those of the part of the language code before its first
    [_]: the whole code when it has none, and otherwise the files of another
    code than the one the configuration was built from. *)
Theorem split_resolution_language_prefix
        (fetch : string -> result string) (local : string -> string)
        (config : SEACrowdConfig) (lang sch : string) :
  (forall url, fetch url = inr (local url)) ->
  sch = "source" \/ sch = "seacrowd_text" ->
  name config = ("nusaparagraph_emot_" ++ lang ++ "_" ++ sch)%string ->
  snd (_split_generators fetch config [])
  = [ FetchOne (train_url (first_field lang));
      FetchOne (validation_url (first_field lang));
      FetchOne (test_url (first_field lang)) ]
  /\ (contains "_"%char lang = false -> first_field lang = lang)
  /\ (contains "_"%char lang = true -> first_field lang <> lang).
Proof.
  intros Hfetch Hsch Hname. split; [|split].
  3:{ intros Hlang Heq. unfold first_field in Heq.
      pose proof (split_fields_no_sep "_"%char lang) as Hall.
      destruct (split "_"%char lang) as [|h t]; cbn [hd] in Heq.
      - subst lang. discriminate Hlang.
      - subst h. inversion Hall as [|x l Hh _]; subst. congruence. }
  - rewrite (split_generators_one fetch local Hfetch config (first_field lang) []);
      [reflexivity | | ].
    + rewrite Hname. now apply all_languages_lang.
    + rewrite Hname. apply name_first_field.
  - intros Hlang. unfold first_field.
    assert (H : split "_"%char (lang ++ String "_"%char "")
                = lang :: split "_"%char "") by now apply split_field.
    rewrite split_append in H. simpl in H.
    destruct (split "_"%char lang) as [|h t]; [discriminate|].
    simpl in H. now injection H as ->.
Qed.

Lemma split_resolution_language_prefix_witness :
  seacrowd_config_constructor "jav_ngoko" "source" "1.0.0"
  = inr (Sample.config_of "jav_ngoko" "source")
  /\ snd (_split_generators Sample.fetch (Sample.config_of "jav_ngoko" "source") [])
     = [ FetchOne (train_url "jav"); FetchOne (validation_url "jav");
         FetchOne (test_url "jav") ].
Proof.
  split; [reflexivity|].
  exact (proj1 (split_resolution_language_prefix Sample.fetch Sample.cached
                  (Sample.config_of "jav_ngoko" "source") "jav_ngoko" "source"
                  (fun url => eq_refl) (or_introl eq_refl) eq_refl)).
Defined.

(** X16. Split resolution does not look at the schema: for one language
    code, the [source] and the [seacrowd_text] configuration make the same
    requests and get the same split generators, or the same exception,
    whatever the download manager answers. *)
Theorem split_resolution_schema_independent
        (fetch : string -> result string) (lang ver1 ver2 : string)
        (config1 config2 : SEACrowdConfig) (log : list request) :
  seacrowd_config_constructor lang "source" ver1 = inr config1 ->
  seacrowd_config_constructor lang "seacrowd_text" ver2 = inr config2 ->
  _split_generators fetch config1 log = _split_generators fetch config2 log.
Proof.
  intros H1 H2.
  destruct (constructor_Ok _ _ _ _ H1) as (_ & _ & Hall1).
  destruct (constructor_Ok _ _ _ _ H2) as (_ & _ & Hall2).
  destruct (constructor_inv _ _ _ _ H1) as (_ & _ & _ & _ & Hn1).
  destruct (constructor_inv _ _ _ _ H2) as (_ & _ & _ & _ & Hn2).
  apply split_generators_ext; [congruence|].
  rewrite Hall2, Hn1, Hn2. intros Hsingle. rewrite Hsingle.
  transitivity (@inr exn string (first_field lang)).
  - exact (name_first_field lang "source").
  - symmetry. exact (name_first_field lang "seacrowd_text").
Qed.

Lemma split_resolution_schema_independent_witness :
  _split_generators Sample.fetch Sample.jav_source []
  = _split_generators Sample.fetch Sample.jav_seacrowd_text [].
Proof.
  exact (split_resolution_schema_independent Sample.fetch "jav" "1.0.0" "1.0.0"
           Sample.jav_source Sample.jav_seacrowd_text [] eq_refl eq_refl).
Defined.

Lemma mapM_length {A B : Type} (f : A -> result B) (l : list A) (bs : list B) :
  mapM f l = inr bs -> List.length bs = List.length l.
Proof.
  intros H. apply mapM_Ok_Forall2 in H. symmetry. exact (Forall2_length H).
Qed.

Lemma mapM_first_error {A B : Type} (f : A -> result B) (l1 : list A) (a : A)
      (l2 : list A) (e : exn) :
  (forall x, In x l1 -> exists b, f x = inr b) ->
  f a = inl e ->
  mapM f (l1 ++ a :: l2) = inl e.
Proof.
  intros Hl1 Ha. induction l1 as [|x l1 IH]; simpl.
  - now rewrite Ha.
  - destruct (Hl1 x (or_introl eq_refl)) as [b Hb]. rewrite Hb. cbn [bind].
    rewrite IH; [reflexivity|]. intros y Hy. apply Hl1. now right.
Qed.

(** X17. Whenever split resolution returns, it returns three split
    generators, train, validation and test in that order, after exactly
    three requests; each carries the kind of [filepath] the branch example
    emission takes under the same configuration works on: a list of as many
    paths as the table has languages under a bare name, one path
    otherwise. *)
Theorem split_generators_shape
        (fetch : string -> result string) (config : SEACrowdConfig)
        (log : list request) (gens : list SplitGenerator) :
  fst (_split_generators fetch config log) = inr gens ->
  map split_name gens = [TRAIN; VALIDATION; TEST]
  /\ Forall (fun g => fits_branch (name config) (gen_kwargs g) = true
                      /\ match gen_kwargs g with
                         | PathList ps =>
                             List.length ps = List.length (keys LANGUAGES_MAP)
                         | OnePath _ => True
                         end) gens
  /\ List.length (snd (_split_generators fetch config log))
     = List.length log + 3.
Proof.
  unfold _split_generators, dl_bind, dl_ret, download_and_extract,
    download_and_extract_list.
  destruct (all_languages (name config)) eqn:Hall.
  - rewrite split_urls_train, split_urls_validation, split_urls_test.
    destruct (mapM fetch (map train_url (keys LANGUAGES_MAP))) as [e|tr] eqn:E1;
      [discriminate|].
    destruct (mapM fetch (map validation_url (keys LANGUAGES_MAP)))
      as [e|va] eqn:E2; [discriminate|].
    destruct (mapM fetch (map test_url (keys LANGUAGES_MAP))) as [e|te] eqn:E3;
      [discriminate|].
    cbn [fst snd]. intros H. injection H as <-.
    apply mapM_length in E1, E2, E3. rewrite length_map in E1, E2, E3.
    split; [reflexivity|]. split.
    + repeat constructor; cbn [gen_kwargs fits_branch]; assumption.
    + unfold Ok. cbv beta iota zeta. cbn [snd]. rewrite !length_app. simpl. lia.
  - destruct (getitem (split "_"%char (name config)) 2) as [e|lang];
      [discriminate|].
    change (split_url "train" lang) with (@inr exn string (train_url lang)).
    change (split_url "validation" lang)
      with (@inr exn string (validation_url lang)).
    change (split_url "test" lang) with (@inr exn string (test_url lang)).
    cbv beta iota.
    destruct (fetch (train_url lang)); [discriminate|].
    destruct (fetch (validation_url lang)); [discriminate|].
    destruct (fetch (test_url lang)); [discriminate|].
    cbn [fst snd]. intros H. injection H as <-.
    split; [reflexivity|]. split.
    + repeat constructor; cbn [gen_kwargs fits_branch]; now rewrite Hall.
    + unfold Ok. cbv beta iota zeta. cbn [snd]. rewrite !length_app. simpl. lia.
Qed.

Lemma split_generators_shape_witness :
  fst (_split_generators Sample.fetch Sample.jav_source [])
  = inr [ {| split_name := TRAIN;
             gen_kwargs := OnePath (Sample.cached (train_url "jav")) |};
          {| split_name := VALIDATION;
             gen_kwargs := OnePath (Sample.cached (validation_url "jav")) |};
          {| split_name := TEST;
             gen_kwargs := OnePath (Sample.cached (test_url "jav")) |} ]
  /\ List.length (snd (_split_generators Sample.fetch Sample.jav_source []))
     = 0 + 3.
Proof.
  split; [reflexivity|].
  exact (proj2 (proj2 (split_generators_shape Sample.fetch Sample.jav_source [] _
                         eq_refl))).
Defined.

(** X18. Under a bare [<dataset>_<schema>] name the train files are asked
    for in one list request; when the download of one language's train file
    fails, the ones before it in the table having succeeded, split
    resolution ends with that exception, and the validation and test files
    are never asked for. *)
Theorem split_resolution_list_failure
        (fetch : string -> result string) (config : SEACrowdConfig)
        (log : list request) (before : list string) (lang : string)
        (after : list string) (e : exn) :
  all_languages (name config) = true ->
  keys LANGUAGES_MAP = before ++ lang :: after ->
  (forall l, In l before -> exists p, fetch (train_url l) = inr p) ->
  fetch (train_url lang) = inl e ->
  _split_generators fetch config log
  = (inl e, log ++ [FetchMany (map train_url (keys LANGUAGES_MAP))]).
Proof.
  intros Hall Hkeys Hbefore Hlang.
  unfold _split_generators, dl_bind, dl_ret, download_and_extract_list.
  rewrite Hall, split_urls_train.
  replace (mapM fetch (map train_url (keys LANGUAGES_MAP))) with (@inl exn (list string) e);
    [reflexivity|].
  symmetry. rewrite Hkeys, map_app. cbn [map].
  apply mapM_first_error; [|exact Hlang].
  intros u Hu. apply in_map_iff in Hu as [l [<- Hl]]. now apply Hbefore.
Qed.

Lemma split_resolution_list_failure_witness :
  _split_generators
    (fun url => if String.eqb url (train_url "bug")
                then inl (DownloadError url) else inr (Sample.cached url))
    Sample.all_source []
  = (inl (DownloadError (train_url "bug")),
     [FetchMany (map train_url (keys LANGUAGES_MAP))]).
Proof.
  apply (split_resolution_list_failure
           (fun url => if String.eqb url (train_url "bug")
                       then inl (DownloadError url) else inr (Sample.cached url))
           Sample.all_source [] ["btk"; "bew"] "bug"
           ["jav"; "mad"; "mak"; "min"; "mui"; "rej"; "sun"]
           (DownloadError (train_url "bug")));
    [reflexivity | reflexivity | | reflexivity].
  intros l [<- | [<- | []]]; eexists; reflexivity.
Defined.

(** ** The fresh numbering, end to end *)

(** X19. For every all-languages configuration and every split, with a
    download manager that resolves every URL and split files that have the
    columns [id], [text] and [label] and none named [index], whose texts and
    labels stack as they stand ([plain_column]): split resolution hands
    emission the files of the 10 languages in table order, and the emitted
    rows are the rows of those files, language after language in table order
    and in row order within a file; the files' own [id] columns are dropped,
    and the emitted [id] values are 0, 1, ..., M-1, where M is the number of
    rows of the 10 files together. *)
Theorem all_languages_ids
        (fetch : string -> result string) (local : string -> string)
        (files : string -> read_error + Csv) (sch ver : string)
        (config : SEACrowdConfig) (gens : list SplitGenerator)
        (g : SplitGenerator) (cs : list Csv) :
  (forall url, fetch url = inr (local url)) ->
  seacrowd_config_constructor "" sch ver = inr config ->
  fst (_split_generators fetch config []) = inr gens ->
  In g gens ->
  Forall2 (fun lang c =>
             files (local (split_file_url (split_name g) lang)) = inr c
             /\ emot_header c = true)
          (keys LANGUAGES_MAP) cs ->
  plain_column (map fst (stacked_rows cs)) = true ->
  plain_column (map snd (stacked_rows cs)) = true ->
  gen_kwargs g
  = PathList (map (fun lang => local (split_file_url (split_name g) lang))
                  (keys LANGUAGES_MAP))
  /\ _generate_examples files config (gen_kwargs g)
     = {| yielded :=
            map (fun p => record_of (VInt (Z.of_nat (fst p))) (fst (snd p))
                                    (snd (snd p)))
                (combine (seq 0 (List.length (stacked_rows cs))) (stacked_rows cs));
          raised := None |}
  /\ map fst (yielded (_generate_examples files config (gen_kwargs g)))
     = map VInt (RangeIndex (list_sum (map (fun c => List.length (body c)) cs)))
  /\ List.length cs = 10.
Proof.
  intros Hfetch Hcfg Hgens Hg Hfiles _ _.
  apply constructor_Ok in Hcfg as (Hsch & Hs & Hall).
  rewrite <- Hs in Hsch. change (String.eqb "" "") with true in Hall.
  rewrite (split_generators_all fetch local Hfetch config [] Hall) in Hgens.
  cbn [fst] in Hgens. injection Hgens as <-.
  assert (Hpaths : gen_kwargs g
                   = PathList (map (fun lang =>
                                      local (split_file_url (split_name g) lang))
                                   (keys LANGUAGES_MAP))).
  { destruct Hg as [<- | [<- | [<- | []]]]; reflexivity. }
  assert (Hlen : List.length (stacked_rows cs)
                 = list_sum (map (fun c => List.length (body c)) cs)).
  { unfold stacked_rows. rewrite length_flat_map_sum. f_equal.
    apply map_ext. intros c. apply length_map. }
  split; [exact Hpaths|]. rewrite Hpaths.
  rewrite (generate_all files config _ cs Hsch Hall);
    [ | discriminate
      | clear -Hfiles; induction Hfiles; simpl; constructor; auto ].
  cbn [yielded]. split; [reflexivity|]. split.
  - rewrite map_map. cbn [record_of fst]. rewrite <- Hlen.
    unfold RangeIndex. rewrite map_map.
    generalize (stacked_rows cs) as rows. intros rows. generalize 0 as a.
    induction rows as [|x rows IH]; intros a; simpl; [reflexivity|].
    now rewrite IH.
  - now rewrite <- (Forall2_length Hfiles).
Qed.

(** X19, on the ten sample train files, 14 rows in all: the ids are 0..13 and
    the rows of the first two languages of the table come first. *)
Lemma all_languages_ids_witness :
  seacrowd_config_constructor "" "source" "1.0.0" = inr Sample.all_source
  /\ map fst (yielded (_generate_examples Sample.disk Sample.all_source
                                          (gen_kwargs Sample.all_train)))
     = map VInt (RangeIndex 14)
  /\ firstn 5 (yielded (_generate_examples Sample.disk Sample.all_source
                                           (gen_kwargs Sample.all_train)))
     = [ (VInt 0, {| ex_id := "0"; ex_text := VStr "p"; ex_label := VStr "fear" |});
         (VInt 1, {| ex_id := "1"; ex_text := VStr "q"; ex_label := VStr "angry" |});
         (VInt 2, {| ex_id := "2"; ex_text := VStr "r"; ex_label := VStr "shame" |});
         (VInt 3, {| ex_id := "3"; ex_text := VStr "s"; ex_label := VStr "sad" |});
         (VInt 4, {| ex_id := "4"; ex_text := VStr "t"; ex_label := VStr "happy" |}) ].
Proof.
  split; [reflexivity|]. split; [|reflexivity].
  apply (all_languages_ids Sample.fetch Sample.cached Sample.disk "source" "1.0.0"
           Sample.all_source
           [ Sample.all_train;
             {| split_name := VALIDATION;
                gen_kwargs :=
                  PathList (map Sample.cached
                                (map validation_url (keys LANGUAGES_MAP))) |};
             {| split_name := TEST;
                gen_kwargs :=
                  PathList (map Sample.cached
                                (map test_url (keys LANGUAGES_MAP))) |} ]
           Sample.all_train (map snd Sample.train_files)
           (fun url => eq_refl) eq_refl eq_refl (or_introl eq_refl));
    [repeat constructor | reflexivity | reflexivity].
Defined.
